(** * Build side of the partitioned hash join: partitioning and hash-table insertion

    A shallow embedding of [be/src/exec/partitioned-hash-join-builder-ir.cc]:
    [PhjBuilder::AppendRow], [PhjBuilder::ProcessBuildBatch] and
    [PhjBuilder::Partition::InsertBatch].

    The three functions are translated statement by statement.  Everything they
    call that lives in other files of the engine (the tuple stream, the hash
    table, the bloom filter, the expression evaluators, the slow append path)
    is an interface: its operations are fields of the class [Runtime] or a
    section variable, and what the functions may rely on is stated as laws.
    The evaluator cache, whose cursor discipline the two loops depend on, is
    given a concrete model. *)

From Stdlib Require Import ZArith Lia Bool.
From stdpp Require Import base list.

Open Scope Z_scope.

(** ** Outcomes of a call *)

(** A call of the embedded code either returns, or runs into behaviour the
    source leaves undefined (an index past the end of an array, a null
    pointer dereferenced, a failed DCHECK), or does not return. *)
Inductive Outcome (A : Type) : Type :=
| Done (a : A)
| Fault
| Diverge.
Arguments Done {A} a.
Arguments Fault {A}.
Arguments Diverge {A}.

Definition bind {A B : Type} (m : Outcome A) (k : A -> Outcome B) : Outcome B :=
  match m with
  | Done a => k a
  | Fault => Fault
  | Diverge => Diverge
  end.

Notation "'let*' x ':=' m 'in' k" := (bind m (fun x => k))
  (at level 10, x pattern, m at level 100, k at level 200).

(** [Status]: [Status::OK()] or an error carrying its code. *)
Inductive Status : Type :=
| OK
| Error (code : nat).

Definition ok (s : Status) : bool :=
  match s with OK => true | Error _ => false end.

(** Modelled from the spec: the enumeration [TPrefetchMode::type] is
    declared outside this file; its values are no prefetching, group
    prefetching and pipelined prefetching.  The code only asks whether the
    mode differs from [NONE]. *)
Inductive TPrefetchMode : Type :=
| NONE
| GROUP_PREFETCH
| PIPELINED_PREFETCH.

(** [prefetch_mode != TPrefetchMode::NONE]. *)
Definition prefetch_enabled (m : TPrefetchMode) : bool :=
  match m with NONE => false | _ => true end.

(** A [uint32_t] holds its value modulo 2^32. *)
Definition wrap32 (z : Z) : Z := z mod 2 ^ 32.

(** ** The evaluator cache *)

(** Modelled from the spec: [HashTableCtx::ExprValuesCache] is declared in
    hash-table.h, which is not part of this file.  The cache has a fixed
    number of slots, each with a hash and a null flag, and one cursor that
    serves the write pass and then the read pass.  [Reset] starts a write
    pass: the cursor returns to slot 0 and every null flag is cleared (the
    write pass only ever sets flags).  [ResetForRead] freezes the end of
    what was written and returns the cursor to slot 0.  Touching a slot at
    or past the capacity is a fault. *)
Record ExprValuesCache : Type := mkCache {
  cur_ : nat;
  cur_end_ : nat;
  expr_values_hash_array_ : list Z;
  null_bitmap_ : list bool
}.

Definition capacity (c : ExprValuesCache) : nat :=
  length (expr_values_hash_array_ c).

Definition Reset (c : ExprValuesCache) : ExprValuesCache :=
  {| cur_ := 0;
     cur_end_ := cur_end_ c;
     expr_values_hash_array_ := expr_values_hash_array_ c;
     null_bitmap_ := replicate (capacity c) false |}.

Definition ResetForRead (c : ExprValuesCache) : ExprValuesCache :=
  {| cur_ := 0;
     cur_end_ := cur_ c;
     expr_values_hash_array_ := expr_values_hash_array_ c;
     null_bitmap_ := null_bitmap_ c |}.

Definition NextRow (c : ExprValuesCache) : ExprValuesCache :=
  {| cur_ := S (cur_ c);
     cur_end_ := cur_end_ c;
     expr_values_hash_array_ := expr_values_hash_array_ c;
     null_bitmap_ := null_bitmap_ c |}.

Definition SetRowNull (c : ExprValuesCache) : Outcome ExprValuesCache :=
  if decide (cur_ c < length (null_bitmap_ c))%nat then
    Done {| cur_ := cur_ c;
            cur_end_ := cur_end_ c;
            expr_values_hash_array_ := expr_values_hash_array_ c;
            null_bitmap_ := <[cur_ c := true]> (null_bitmap_ c) |}
  else Fault.

Definition IsRowNull (c : ExprValuesCache) : Outcome bool :=
  match null_bitmap_ c !! cur_ c with
  | Some b => Done b
  | None => Fault
  end.

Definition CurExprValuesHash (c : ExprValuesCache) : Outcome Z :=
  match expr_values_hash_array_ c !! cur_ c with
  | Some h => Done h
  | None => Fault
  end.

Definition SetCurExprValuesHash (c : ExprValuesCache) (h : Z)
  : Outcome ExprValuesCache :=
  if decide (cur_ c < capacity c)%nat then
    Done {| cur_ := cur_ c;
            cur_end_ := cur_end_ c;
            expr_values_hash_array_ := <[cur_ c := h]> (expr_values_hash_array_ c);
            null_bitmap_ := null_bitmap_ c |}
  else Fault.

(** [HashTableCtx]: the recursion level of the build and the cache. *)
Record HashTableCtx : Type := mkCtx {
  level : nat;
  expr_values_cache : ExprValuesCache
}.

Definition with_cache (ctx : HashTableCtx) (c : ExprValuesCache) : HashTableCtx :=
  {| level := level ctx; expr_values_cache := c |}.

(** ** The collaborators *)

(** What the three functions use of the rest of the engine.  [key_hash row]
    is the result of evaluating and hashing the join keys of [row]: [None]
    when a key is NULL and the table does not store NULLs.  [AddRow] is the
    non-growing append of a stream: it returns its boolean result, the value
    it leaves in [*status], and the stream afterwards.  [HashTable_Insert]
    receives the hash that the real [Insert] reads from the current slot of
    the cache.  [GetValue] returns [None] for a NULL value.  The last three
    fields are what can be observed of a container: the rows a stream holds,
    in order; the (hash, row index) entries of a hash table; the membership
    test of a bloom filter. *)
Class Runtime : Type := {
  TupleRow : Type;
  RowIdx : Type;
  BufferedTupleStream : Type;
  HashTable : Type;
  BloomFilter : Type;
  ScalarExprEvaluator : Type;
  ColumnType : Type;
  Value : Type;
  NUM_PARTITIONING_BITS : Z;
  DefaultHashSeed : Z;
  key_hash : TupleRow -> option Z;
  AddRow : BufferedTupleStream -> TupleRow -> bool * Status * BufferedTupleStream;
  HashTable_Insert : HashTable -> Z -> RowIdx -> TupleRow -> bool * HashTable;
  BloomFilter_Insert : BloomFilter -> Z -> BloomFilter;
  GetValue : ScalarExprEvaluator -> TupleRow -> option Value;
  root_type : ScalarExprEvaluator -> ColumnType;
  GetHashValue : option Value -> ColumnType -> Z -> Z;
  stream_rows : BufferedTupleStream -> list TupleRow;
  entries : HashTable -> list (Z * RowIdx);
  Find : BloomFilter -> Z -> bool
}.

(** The contracts of the collaborators, as the core relies on them:
    [AddRow] appends exactly when it returns true; [Insert] adds its entry
    exactly when it returns true; a bloom filter reports what was inserted
    and never forgets. *)
Class RuntimeLaws (RT : Runtime) : Prop := {
  AddRow_true : forall s r st s',
    AddRow s r = (true, st, s') -> stream_rows s' = stream_rows s ++ [r];
  AddRow_false : forall s r st s',
    AddRow s r = (false, st, s') -> stream_rows s' = stream_rows s;
  Insert_true : forall ht h i r ht',
    HashTable_Insert ht h i r = (true, ht') ->
    entries ht' ≡ₚ entries ht ++ [(h, i)];
  Insert_false : forall ht h i r ht',
    HashTable_Insert ht h i r = (false, ht') -> entries ht' ≡ₚ entries ht;
  Find_Insert : forall bf h, Find (BloomFilter_Insert bf h) h = true;
  Find_mono : forall bf h x,
    Find bf x = true -> Find (BloomFilter_Insert bf h) x = true
}.

Section Model.

Context {RT : Runtime}.

(** Modelled from the spec: [HashTableCtx::EvalAndHashBuild] is defined in
    hash-table.cc.  It evaluates the join keys of the row into the current
    slot; on a NULL key it returns false, otherwise it stores the 32-bit hash
    of the row in the current slot and returns true. *)
Definition EvalAndHashBuild (row : TupleRow) (ctx : HashTableCtx)
  : Outcome (bool * HashTableCtx) :=
  let c := expr_values_cache ctx in
  if decide (cur_ c < capacity c)%nat then
    match key_hash row with
    | None => Done (false, ctx)
    | Some h =>
        let* c' := SetCurExprValuesHash c (wrap32 h) in
        Done (true, with_cache ctx c')
    end
  else Fault.

(** *** The builder *)

Record Partition : Type := mkPartition {
  build_rows : BufferedTupleStream;
  hash_tbl_ : option HashTable
}.

Record FilterContext : Type := mkFilterContext {
  expr : ScalarExprEvaluator;
  local_bloom_filter : option BloomFilter
}.

Record PhjBuilder : Type := mkBuilder {
  hash_partitions_ : list Partition;
  null_aware_partition_ : option Partition;
  filters_ : list FilterContext
}.

(** A [BufferedTupleStream*] handed to [AppendRow] points into the builder:
    at the stream of the null-aware partition or of a hash partition. *)
Inductive StreamRef : Type :=
| NullAwareRows
| HashRows (partition_idx : nat).

Definition with_build_rows (p : Partition) (s : BufferedTupleStream) : Partition :=
  {| build_rows := s; hash_tbl_ := hash_tbl_ p |}.

Definition stream_at (b : PhjBuilder) (ref : StreamRef) : option BufferedTupleStream :=
  match ref with
  | NullAwareRows => build_rows <$> null_aware_partition_ b
  | HashRows i => build_rows <$> hash_partitions_ b !! i
  end.

Definition set_stream (b : PhjBuilder) (ref : StreamRef) (s : BufferedTupleStream)
  : PhjBuilder :=
  match ref with
  | NullAwareRows =>
      {| hash_partitions_ := hash_partitions_ b;
         null_aware_partition_ :=
           (fun p => with_build_rows p s) <$> null_aware_partition_ b;
         filters_ := filters_ b |}
  | HashRows i =>
      {| hash_partitions_ :=
           alter (fun p => with_build_rows p s) i (hash_partitions_ b);
         null_aware_partition_ := null_aware_partition_ b;
         filters_ := filters_ b |}
  end.

(** [PhjBuilder::AppendRowStreamFull] is defined in
    partitioned-hash-join-builder.cc; it works on the whole builder (it may
    spill any partition to make room). *)
Class SlowPath : Type := {
  AppendRowStreamFull : PhjBuilder -> StreamRef -> TupleRow -> Status * PhjBuilder
}.

Context {SP : SlowPath}.

(** The state [ProcessBuildBatch] runs on: the builder, the [HashTableCtx]
    argument, and a record of the calls made to the slow append path. *)
Record BuildState : Type := mkBuildState {
  builder : PhjBuilder;
  ht_ctx : HashTableCtx;
  slow_path_calls : list (StreamRef * TupleRow)
}.

Definition with_builder (w : BuildState) (b : PhjBuilder) : BuildState :=
  {| builder := b; ht_ctx := ht_ctx w; slow_path_calls := slow_path_calls w |}.

Definition with_ctx (w : BuildState) (ctx : HashTableCtx) : BuildState :=
  {| builder := builder w; ht_ctx := ctx; slow_path_calls := slow_path_calls w |}.

(** [PhjBuilder::AppendRow]. *)
Definition AppendRow (stream : StreamRef) (row : TupleRow) (w : BuildState)
  : Outcome (Status * BuildState) :=
  match stream_at (builder w) stream with
  | None => Fault
  | Some s =>
      let '(added, status, s') := AddRow s row in
      let w1 := with_builder w (set_stream (builder w) stream s') in
      if added then Done (OK, w1)
      else if negb (ok status) then Done (status, w1)
      else
        let '(st, b') := AppendRowStreamFull (builder w1) stream row in
        Done (st, {| builder := b';
                     ht_ctx := ht_ctx w1;
                     slow_path_calls := slow_path_calls w1 ++ [(stream, row)] |})
  end.

(** The 32-bit hash of the value of a filter expression on a row, under
    the default seed. *)
Definition filter_hash_of (e : ScalarExprEvaluator) (row : TupleRow) : Z :=
  wrap32 (GetHashValue (GetValue e row) (root_type e) DefaultHashSeed).

(** One iteration of [for (const FilterContext& ctx : filters_)]. *)
Definition insert_filter (row : TupleRow) (fc : FilterContext) : FilterContext :=
  match local_bloom_filter fc with
  | None => fc
  | Some bf =>
      let e := GetValue (expr fc) row in
      let filter_hash :=
        wrap32 (GetHashValue e (root_type (expr fc)) DefaultHashSeed) in
      {| expr := expr fc;
         local_bloom_filter := Some (BloomFilter_Insert bf filter_hash) |}
  end.

Definition insert_filters (row : TupleRow) (b : PhjBuilder) : PhjBuilder :=
  {| hash_partitions_ := hash_partitions_ b;
     null_aware_partition_ := null_aware_partition_ b;
     filters_ := insert_filter row <$> filters_ b |}.

(** The body of [FOREACH_ROW] in [ProcessBuildBatch]; the status is [OK]
    when the loop goes on to the next row.  [DCHECK_EQ(ctx->level(), 0)] is
    the test on [level]: filters built during repartitioning are a fault. *)
Definition process_build_row (build_filters : bool) (build_row : TupleRow)
    (w : BuildState) : Outcome (Status * BuildState) :=
  let* (has_key, ctx1) := EvalAndHashBuild build_row (ht_ctx w) in
  let w := with_ctx w ctx1 in
  if negb has_key then
    match null_aware_partition_ (builder w) with
    | Some _ => AppendRow NullAwareRows build_row w
    | None => Done (OK, w)
    end
  else
    let* w :=
      (if build_filters then
         if decide (level (ht_ctx w) = 0%nat)
         then Done (with_builder w (insert_filters build_row (builder w)))
         else Fault
       else Done w) in
    let* hash := CurExprValuesHash (expr_values_cache (ht_ctx w)) in
    let partition_idx := Z.shiftr hash (32 - NUM_PARTITIONING_BITS) in
    match hash_partitions_ (builder w) !! Z.to_nat partition_idx with
    | None => Fault
    | Some _ => AppendRow (HashRows (Z.to_nat partition_idx)) build_row w
    end.

Fixpoint process_build_rows (build_filters : bool) (rows : list TupleRow)
    (w : BuildState) : Outcome (Status * BuildState) :=
  match rows with
  | [] => Done (OK, w)
  | build_row :: rest =>
      let* (status, w') := process_build_row build_filters build_row w in
      if ok status then process_build_rows build_filters rest w'
      else Done (status, w')
  end.

(** [PhjBuilder::ProcessBuildBatch]; the batch is the list of its rows,
    which [FOREACH_ROW(build_batch, 0, it)] visits in order. *)
Definition ProcessBuildBatch (build_batch : list TupleRow) (build_filters : bool)
    (w : BuildState) : Outcome (Status * BuildState) :=
  let ctx := ht_ctx w in
  let w := with_ctx w (with_cache ctx (Reset (expr_values_cache ctx))) in
  process_build_rows build_filters build_batch w.

(** *** Building the hash table of a partition *)

(** The state [Partition::InsertBatch] runs on: the partition ([this]), the
    [HashTableCtx] argument, and a record of the hashes handed to
    [PrefetchBucket], which has no other effect. *)
Record InsertState : Type := mkInsertState {
  this : Partition;
  ins_ctx : HashTableCtx;
  prefetched : list Z
}.

Definition with_ins_cache (w : InsertState) (c : ExprValuesCache) : InsertState :=
  {| this := this w;
     ins_ctx := with_cache (ins_ctx w) c;
     prefetched := prefetched w |}.

Definition with_hash_tbl (w : InsertState) (ht : HashTable) : InsertState :=
  {| this := {| build_rows := build_rows (this w); hash_tbl_ := Some ht |};
     ins_ctx := ins_ctx w;
     prefetched := prefetched w |}.

Definition ins_cache (w : InsertState) : ExprValuesCache :=
  expr_values_cache (ins_ctx w).

(** Modelled from the spec: the macro [FOREACH_ROW_LIMIT(batch, start, limit,
    it)] of row-batch.h visits the rows at the positions from [start] up to
    the smaller of [start + limit] and the number of rows of the batch. *)
Definition rows_limit (batch : list TupleRow) (start limit : nat) : list TupleRow :=
  take limit (drop start batch).

(** The first loop of a group: hash the rows and prefetch their buckets. *)
Fixpoint prefetch_rows (prefetch_mode : TPrefetchMode) (rows : list TupleRow)
    (w : InsertState) : Outcome InsertState :=
  match rows with
  | [] => Done w
  | row :: rest =>
      let* (has_key, ctx1) := EvalAndHashBuild row (ins_ctx w) in
      let w := {| this := this w; ins_ctx := ctx1; prefetched := prefetched w |} in
      let* w :=
        (if has_key then
           if prefetch_enabled prefetch_mode then
             match hash_tbl_ (this w) with
             | None => Fault
             | Some _ =>
                 let* h := CurExprValuesHash (ins_cache w) in
                 Done {| this := this w;
                         ins_ctx := ins_ctx w;
                         prefetched := prefetched w ++ [h] |}
             end
           else Done w
         else
           let* c := SetRowNull (ins_cache w) in
           Done (with_ins_cache w c)) in
      prefetch_rows prefetch_mode rest (with_ins_cache w (NextRow (ins_cache w)))
  end.

(** The second loop of a group: insert the rows.  The boolean is false when
    the loop left the function with [return false]. *)
Fixpoint insert_rows (row_indices : list RowIdx) (rows : list TupleRow)
    (cur_row : nat) (w : InsertState) : Outcome (bool * InsertState) :=
  match rows with
  | [] => Done (true, w)
  | row :: rest =>
      match row_indices !! cur_row with
      | None => Fault
      | Some row_idx =>
          let* is_null := IsRowNull (ins_cache w) in
          let* (inserted, w) :=
            (if negb is_null then
               match hash_tbl_ (this w) with
               | None => Fault
               | Some ht =>
                   let* h := CurExprValuesHash (ins_cache w) in
                   let '(inserted, ht') := HashTable_Insert ht h row_idx row in
                   Done (inserted, with_hash_tbl w ht')
               end
             else Done (true, w)) in
          if negb inserted then Done (false, w)
          else insert_rows row_indices rest (S cur_row)
                 (with_ins_cache w (NextRow (ins_cache w)))
      end
  end.

(** The loop over the prefetch groups.  Each turn of the loop uses one unit
    of fuel; the loop makes no progress when [prefetch_size] is 0.  Row
    positions and counts are [int]s in the source; they are counted in [nat]
    here, a batch being far shorter than 2^31 rows. *)
Fixpoint insert_groups (fuel : nat) (prefetch_mode : TPrefetchMode)
    (batch : list TupleRow) (row_indices : list RowIdx) (prefetch_size : nat)
    (prefetch_group_row : nat) (w : InsertState) : Outcome (bool * InsertState) :=
  if decide (prefetch_group_row < length batch)%nat then
    match fuel with
    | O => Diverge
    | S fuel =>
        let cur_row := prefetch_group_row in
        let w := with_ins_cache w (Reset (ins_cache w)) in
        let* w := prefetch_rows prefetch_mode
                    (rows_limit batch cur_row prefetch_size) w in
        let w := with_ins_cache w (ResetForRead (ins_cache w)) in
        let* (finished, w) :=
          insert_rows row_indices (rows_limit batch cur_row prefetch_size)
            cur_row w in
        if negb finished then Done (false, w)
        else insert_groups fuel prefetch_mode batch row_indices prefetch_size
               (prefetch_group_row + prefetch_size) w
    end
  else Done (true, w).

(** [PhjBuilder::Partition::InsertBatch]; the batch is the list of its rows
    and [indices] the vector of their row indices. *)
Definition InsertBatch (prefetch_mode : TPrefetchMode) (batch : list TupleRow)
    (indices : list RowIdx) (w : InsertState) : Outcome (bool * InsertState) :=
  let num_rows := length batch in
  let prefetch_size := capacity (ins_cache w) in
  insert_groups num_rows prefetch_mode batch indices prefetch_size 0 w.

(** *** What the slow append path guarantees *)

Definition rows_at (b : PhjBuilder) (ref : StreamRef) : option (list TupleRow) :=
  stream_rows <$> stream_at b ref.

(** The contract of [AppendRowStreamFull]: when it returns [OK] the row is
    at the end of the stream it was given and the rows of every other stream
    are as before (spilling moves pages, not rows); whatever it returns, it
    leaves the filters and the hash tables of the builder alone. *)
Record SlowPathLaws : Prop := {
  slow_appends : forall b ref r b',
    AppendRowStreamFull b ref r = (OK, b') ->
    rows_at b' ref = (fun l => l ++ [r]) <$> rows_at b ref;
  slow_others : forall b ref r b' ref',
    AppendRowStreamFull b ref r = (OK, b') -> ref' <> ref ->
    rows_at b' ref' = rows_at b ref';
  slow_filters : forall b ref r st b',
    AppendRowStreamFull b ref r = (st, b') -> filters_ b' = filters_ b;
  slow_hash_tbls : forall b ref r st b',
    AppendRowStreamFull b ref r = (st, b') ->
    hash_tbl_ <$> hash_partitions_ b' = hash_tbl_ <$> hash_partitions_ b /\
    hash_tbl_ <$> null_aware_partition_ b' = hash_tbl_ <$> null_aware_partition_ b
}.

(** ** Where a row goes *)

(** The hash partition selected by a key hash: its top bits. *)
Definition partition_of (h : Z) : nat :=
  Z.to_nat (Z.shiftr (wrap32 h) (32 - NUM_PARTITIONING_BITS)).

Definition destination (row : TupleRow) : StreamRef :=
  match key_hash row with
  | None => NullAwareRows
  | Some h => HashRows (partition_of h)
  end.

#[global] Instance StreamRef_eq_dec : EqDecision StreamRef.
Proof. solve_decision. Defined.

Definition routed_to (ref : StreamRef) (row : TupleRow) : bool :=
  bool_decide (destination row = ref).

Definition has_key (row : TupleRow) : bool :=
  match key_hash row with Some _ => true | None => false end.

(** What a stream gains from one row and from a list of rows. *)
Definition gain (ref : StreamRef) (rows : list TupleRow) : list TupleRow :=
  List.filter (routed_to ref) rows.

(** ** What the filters receive *)

(** What a row does to the filters, whatever the status it ends with. *)
Definition filters_step (bf : bool) (r : TupleRow) (fs : list FilterContext)
  : list FilterContext :=
  if bf && has_key r then insert_filter r <$> fs else fs.

(** The filters after the rows of a list have gone through the loop. *)
Definition filters_after (bf : bool) (rows : list TupleRow) (fs : list FilterContext)
  : list FilterContext :=
  fold_left (fun fs r => filters_step bf r fs) rows fs.

(** Whether a filter has a bloom filter to fill. *)
Definition has_bloom (fc : FilterContext) : bool :=
  match local_bloom_filter fc with Some _ => true | None => false end.

(** The part of the builder that is neither the rows of a stream nor the
    contents of a bloom filter: the hash tables of the partitions (and with
    them the number of partitions and whether there is a null-aware
    partition), the expressions of the filters and which of them have a
    bloom filter. *)
Definition same_frame (b b' : PhjBuilder) : Prop :=
  hash_tbl_ <$> hash_partitions_ b' = hash_tbl_ <$> hash_partitions_ b /\
  hash_tbl_ <$> null_aware_partition_ b' = hash_tbl_ <$> null_aware_partition_ b /\
  expr <$> filters_ b' = expr <$> filters_ b /\
  has_bloom <$> filters_ b' = has_bloom <$> filters_ b.

(** ** When [ProcessBuildBatch] is defined *)

(** What the builder and the context must satisfy for a row to be
    processed: the current slot of the cache exists, there are 2^B hash
    partitions, and filters are only built at level 0. *)
Definition build_ready (build_filters : bool) (w : BuildState) : Prop :=
  (cur_ (expr_values_cache (ht_ctx w)) < capacity (expr_values_cache (ht_ctx w)))%nat /\
  length (hash_partitions_ (builder w)) = Z.to_nat (2 ^ NUM_PARTITIONING_BITS) /\
  (build_filters = true -> level (ht_ctx w) = 0%nat).

(** ** Where the loop calls [AppendRow] *)

(** The state in which the body of the loop calls [AppendRow] for a row,
    from the state [w] in which it starts on the row.  For a row with a NULL
    key nothing has been written yet.  For a row with a key,
    [EvalAndHashBuild] has written the hash of the row in the current slot
    of the cache and, when filters are built, the row has been hashed into
    the bloom filters. *)
Definition state_at_append (build_filters : bool) (row : TupleRow)
    (w : BuildState) : BuildState :=
  match key_hash row with
  | None => w
  | Some h =>
      let c := expr_values_cache (ht_ctx w) in
      {| builder :=
           if build_filters then insert_filters row (builder w) else builder w;
         ht_ctx :=
           with_cache (ht_ctx w)
             {| cur_ := cur_ c;
                cur_end_ := cur_end_ c;
                expr_values_hash_array_ :=
                  <[cur_ c := wrap32 h]> (expr_values_hash_array_ c);
                null_bitmap_ := null_bitmap_ c |};
         slow_path_calls := slow_path_calls w |}
  end.

(** ** What a hash table receives *)

(** The (hash, row index) entries of the rows that have a key, for a list
    of rows paired with their row indices. *)
Definition keyed_entries (ps : list (TupleRow * RowIdx)) : list (Z * RowIdx) :=
  omap (fun p => (fun h => (wrap32 h, p.2)) <$> key_hash p.1) ps.

(** The hashes of the rows that have a key. *)
Definition keyed_hashes (rows : list TupleRow) : list Z :=
  omap (fun r => wrap32 <$> key_hash r) rows.

(** Inserting the rows one at a time, in order, each row with a key under
    its hash and its row index, up to the first insertion that fails. *)
Fixpoint insert_seq (ps : list (TupleRow * RowIdx)) (ht : HashTable)
  : bool * HashTable :=
  match ps with
  | [] => (true, ht)
  | p :: rest =>
      match key_hash p.1 with
      | None => insert_seq rest ht
      | Some h =>
          let '(inserted, ht') := HashTable_Insert ht (wrap32 h) p.2 p.1 in
          if inserted then insert_seq rest ht' else (false, ht')
      end
  end.

(** The first slots of the cache describe the rows of a list: slot [j] has
    the null flag of row [j] and, when the row has a key, its hash. *)
Definition slots_hold (c : ExprValuesCache) (rows : list TupleRow) : Prop :=
  forall j r, rows !! j = Some r ->
    null_bitmap_ c !! j = Some (negb (has_key r)) /\
    forall h, key_hash r = Some h ->
      expr_values_hash_array_ c !! j = Some (wrap32 h).

(** What the first pass does to the cache for one row: it fills the
    current slot, with the hash of the row or with the null flag, and moves
    to the next slot. *)
Definition write_slot (r : TupleRow) (c : ExprValuesCache) : ExprValuesCache :=
  match key_hash r with
  | Some h =>
      {| cur_ := S (cur_ c);
         cur_end_ := cur_end_ c;
         expr_values_hash_array_ := <[cur_ c := wrap32 h]> (expr_values_hash_array_ c);
         null_bitmap_ := null_bitmap_ c |}
  | None =>
      {| cur_ := S (cur_ c);
         cur_end_ := cur_end_ c;
         expr_values_hash_array_ := expr_values_hash_array_ c;
         null_bitmap_ := <[cur_ c := true]> (null_bitmap_ c) |}
  end.

(** ** Counting rows *)

Definition stream_length (p : Partition) : nat :=
  length (stream_rows (build_rows p)).

(** The rows held by the streams of the hash partitions and of the
    null-aware partition together. *)
Definition total_rows (b : PhjBuilder) : nat :=
  (sum_list_with stream_length (hash_partitions_ b) +
   from_option stream_length 0 (null_aware_partition_ b))%nat.

(** The rows of a batch that go nowhere: those with a NULL key, when the
    builder has no null-aware partition. *)
Definition dropped (b : PhjBuilder) (rows : list TupleRow) : nat :=
  match null_aware_partition_ b with
  | Some _ => 0%nat
  | None => length (List.filter (fun r => negb (has_key r)) rows)
  end.

End Model.

(** * A small engine

    A concrete instance of the collaborators, used to run the three
    functions on the scenarios of the specification: rows that carry their
    key hash, streams of pages that hold two rows, a hash table with a fixed
    number of entries, and a bloom filter of 64 bits. *)

Module Sample.

Record Row : Type := mkRow {
  row_id : nat;
  join_key : option Z;   (* the hash of the join keys; None: a key is NULL *)
  filter_val : option Z  (* the value of the filter expression; None: NULL *)
}.

Record Stream : Type := mkStream {
  rows : list Row;
  free_slots : nat;       (* room left in the current page *)
  io_error : option nat;  (* a pending hard error *)
  reservation : nat       (* pages the stream may still get *)
}.

Definition page_rows : nat := 2.

Definition add_row (s : Stream) (r : Row) : bool * Status * Stream :=
  match io_error s with
  | Some code => (false, Error code, s)
  | None =>
      match free_slots s with
      | O => (false, OK, s)
      | S n => (true, OK,
                {| rows := rows s ++ [r]; free_slots := n;
                   io_error := io_error s; reservation := reservation s |})
      end
  end.

Record Table : Type := mkTable {
  slots : list (Z * nat);
  room : nat
}.

Definition table_insert (t : Table) (h : Z) (i : nat) (r : Row) : bool * Table :=
  if decide (length (slots t) < room t)%nat
  then (true, {| slots := slots t ++ [(h, i)]; room := room t |})
  else (false, t).

Definition bloom_bit (h : Z) : Z := h mod 64.

Definition bloom_insert (bf : Z) (h : Z) : Z :=
  Z.lor bf (Z.shiftl 1 (bloom_bit h)).

Definition bloom_find (bf : Z) (h : Z) : bool := Z.testbit bf (bloom_bit h).

Definition hash_value (v : option Z) (t : unit) (seed : Z) : Z :=
  match v with
  | None => Z.lxor seed 0x9e3779b9
  | Some z => z * 31 + seed
  end.

#[global] Instance runtime : Runtime := {|
  TupleRow := Row;
  RowIdx := nat;
  BufferedTupleStream := Stream;
  HashTable := Table;
  BloomFilter := Z;
  ScalarExprEvaluator := unit;
  ColumnType := unit;
  Value := Z;
  NUM_PARTITIONING_BITS := 2;
  DefaultHashSeed := 1234;
  key_hash := join_key;
  AddRow := add_row;
  HashTable_Insert := table_insert;
  BloomFilter_Insert := bloom_insert;
  GetValue := fun _ r => filter_val r;
  root_type := fun _ => tt;
  GetHashValue := hash_value;
  stream_rows := rows;
  entries := slots;
  Find := bloom_find
|}.

(** The slow path of the small engine: the stream gets a fresh page when
    its reservation allows, and the row goes there; otherwise the append
    fails with error 2. *)
Definition stream_full (b : PhjBuilder) (ref : StreamRef) (r : Row)
  : Status * PhjBuilder :=
  match stream_at b ref with
  | None => (Error 1, b)
  | Some s =>
      match reservation s with
      | O => (Error 2, b)
      | S n =>
          (OK, set_stream b ref
                 {| rows := rows s ++ [r]; free_slots := pred page_rows;
                    io_error := io_error s; reservation := n |})
      end
  end.

#[global] Instance slow_path : SlowPath := {| AppendRowStreamFull := stream_full |}.

Definition empty_stream : Stream :=
  {| rows := []; free_slots := 1; io_error := None; reservation := 4 |}.

Definition empty_partition : Partition :=
  {| build_rows := empty_stream; hash_tbl_ := None |}.

Definition fresh_cache (n : nat) : ExprValuesCache :=
  {| cur_ := 0; cur_end_ := 0;
     expr_values_hash_array_ := replicate n 0;
     null_bitmap_ := replicate n false |}.

Definition fresh_ctx (n : nat) : HashTableCtx :=
  {| level := 0; expr_values_cache := fresh_cache n |}.

(** A filter with an empty bloom filter. *)
Definition filter_with_bloom : FilterContext :=
  {| expr := tt; local_bloom_filter := Some 0 |}.

(** A builder with four hash partitions (B = 2), with or without the
    null-aware partition, and two filters of which the first has a bloom
    filter. *)
Definition builder0 (null_aware : bool) : PhjBuilder :=
  {| hash_partitions_ := replicate 4 empty_partition;
     null_aware_partition_ := if null_aware then Some empty_partition else None;
     filters_ := [ filter_with_bloom;
                   {| expr := tt; local_bloom_filter := None |} ] |}.

Definition state0 (null_aware : bool) : BuildState :=
  {| builder := builder0 null_aware;
     ht_ctx := fresh_ctx 4;
     slow_path_calls := [] |}.

Definition keyed (i : nat) (h : Z) : Row :=
  {| row_id := i; join_key := Some h; filter_val := Some (Z.of_nat i) |}.

Definition null_keyed (i : nat) : Row :=
  {| row_id := i; join_key := None; filter_val := Some (Z.of_nat i) |}.

Definition null_valued (i : nat) (h : Z) : Row :=
  {| row_id := i; join_key := Some h; filter_val := None |}.

(** The batch of scenario 1: hashes with distinct top two bits. *)
Definition batch4 : list Row :=
  [keyed 0 0x00000001; keyed 1 0x40000002; keyed 2 0x80000003; keyed 3 0xC0000004].

(** The batch of scenario 2: a NULL key between two keyed rows. *)
Definition batch3 : list Row :=
  [keyed 0 0x10000000; null_keyed 1; keyed 2 0x90000000].

(** The batch of scenario 3: NULL keys only. *)
Definition batch_nulls : list Row := [null_keyed 0; null_keyed 1].

(** A partition whose hash table has room for [n] entries. *)
Definition table_partition (n : nat) : Partition :=
  {| build_rows := empty_stream;
     hash_tbl_ := Some {| slots := []; room := n |} |}.

Definition insert_state0 (n : nat) : InsertState :=
  {| this := table_partition n; ins_ctx := fresh_ctx 4; prefetched := [] |}.

(** Ten rows for scenarios 5 and 6; row 3 and row 8 have a NULL key. *)
Definition batch10 : list Row :=
  [keyed 0 10; keyed 1 11; keyed 2 12; null_keyed 3; keyed 4 14;
   keyed 5 15; keyed 6 16; keyed 7 17; null_keyed 8; keyed 9 19].

Definition indices10 : list nat := [100; 101; 102; 103; 104; 105; 106; 107; 108; 109]%nat.

(** The state a run ends in (the given state when it does not return). *)
Definition state_of {A S : Type} (o : Outcome (A * S)) (d : S) : S :=
  match o with
  | Done (_, w) => w
  | _ => d
  end.

Definition after_batch4 : BuildState :=
  Eval vm_compute in
    state_of (ProcessBuildBatch batch4 true (state0 true)) (state0 true).

Definition after_batch4_unfiltered : BuildState :=
  Eval vm_compute in
    state_of (ProcessBuildBatch batch4 false (state0 true)) (state0 true).

Definition after_batch3 : BuildState :=
  Eval vm_compute in
    state_of (ProcessBuildBatch batch3 true (state0 true)) (state0 true).

Definition after_batch_nulls : BuildState :=
  Eval vm_compute in
    state_of (ProcessBuildBatch batch_nulls true (state0 false)) (state0 false).

(** A batch whose second row has a key and a NULL filter value. *)
Definition batch_null_value : list Row :=
  [keyed 0 0x00000001; null_valued 1 0x40000002; keyed 2 0x80000003].

Definition after_batch_null_value : BuildState :=
  Eval vm_compute in
    state_of (ProcessBuildBatch batch_null_value true (state0 true)) (state0 true).

(** A builder whose third hash partition has a stream with a pending I/O
    error 7. *)
Definition failing_stream : Stream :=
  {| rows := []; free_slots := 1; io_error := Some 7%nat; reservation := 4 |}.

Definition state_failing : BuildState :=
  {| builder :=
       {| hash_partitions_ :=
            [empty_partition; empty_partition;
             {| build_rows := failing_stream; hash_tbl_ := None |};
             empty_partition];
          null_aware_partition_ := None;
          filters_ := [ filter_with_bloom ] |};
     ht_ctx := fresh_ctx 4;
     slow_path_calls := [] |}.

Definition before_failure : BuildState :=
  Eval vm_compute in
    state_of (ProcessBuildBatch (take 2 batch4) true state_failing) state_failing.

Definition at_failure : BuildState :=
  Eval vm_compute in
    state_of (process_build_row true (keyed 2 0x80000003) before_failure)
      before_failure.

(** A builder whose null-aware partition has a stream with a pending I/O
    error 7. *)
Definition state_failing_null_aware : BuildState :=
  {| builder :=
       {| hash_partitions_ := replicate 4 empty_partition;
          null_aware_partition_ :=
            Some {| build_rows := failing_stream; hash_tbl_ := None |};
          filters_ := [ filter_with_bloom ] |};
     ht_ctx := fresh_ctx 4;
     slow_path_calls := [] |}.

Definition before_null_failure : BuildState :=
  Eval vm_compute in
    state_of (ProcessBuildBatch (take 1 batch3) true state_failing_null_aware)
      state_failing_null_aware.

Definition at_null_failure : BuildState :=
  Eval vm_compute in
    state_of (AppendRow NullAwareRows (null_keyed 1) before_null_failure)
      before_null_failure.

Definition after_batch3_dropping : BuildState :=
  Eval vm_compute in
    state_of (ProcessBuildBatch batch3 true (state0 false)) (state0 false).

Definition after_insert10 : InsertState :=
  Eval vm_compute in
    state_of (InsertBatch GROUP_PREFETCH batch10 indices10 (insert_state0 16))
      (insert_state0 16).

(** The hash table of five entries after the first six rows of [batch10]. *)
Definition table_full : Table :=
  {| slots := [(10, 100%nat); (11, 101%nat); (12, 102%nat); (14, 104%nat);
               (15, 105%nat)];
     room := 5 |}.

(** Three rows for the first hash partition: the second one finds the
    page full. *)
Definition batch_one_partition : list Row :=
  [keyed 0 0x00000001; keyed 1 0x00000002; keyed 2 0x00000003].

Definition after_one_partition : BuildState :=
  Eval vm_compute in
    state_of (ProcessBuildBatch batch_one_partition false (state0 true))
      (state0 true).

Definition after_insert10_full : InsertState :=
  Eval vm_compute in
    state_of (InsertBatch GROUP_PREFETCH batch10 indices10 (insert_state0 5))
      (insert_state0 5).

Definition after_insert10_unprefetched : InsertState :=
  Eval vm_compute in
    state_of (InsertBatch NONE batch10 indices10 (insert_state0 16))
      (insert_state0 16).

Definition after_insert_first4 : InsertState :=
  Eval vm_compute in
    state_of (InsertBatch GROUP_PREFETCH (take 4 batch10) (take 4 indices10)
                (insert_state0 16))
      (insert_state0 16).

(** A context whose cache has no slot. *)
Definition insert_state_no_slots : InsertState :=
  {| this := table_partition 16; ins_ctx := fresh_ctx 0; prefetched := [] |}.

End Sample.

(** * Properties *)

Section Properties.

Context {RT : Runtime} {SP : SlowPath}.

(** ** Lemmas on the cache and on [EvalAndHashBuild] *)

Lemma EvalAndHashBuild_null row ctx ctx1 :
  EvalAndHashBuild row ctx = Done (false, ctx1) ->
  key_hash row = None /\ ctx1 = ctx.
Proof.
  unfold EvalAndHashBuild, SetCurExprValuesHash.
  case_decide; [|discriminate].
  destruct (key_hash row); simpl.
  - discriminate.
  - intros [= <-]. auto.
Qed.

Lemma EvalAndHashBuild_key row ctx ctx1 :
  EvalAndHashBuild row ctx = Done (true, ctx1) ->
  exists h, key_hash row = Some h /\
    CurExprValuesHash (expr_values_cache ctx1) = Done (wrap32 h) /\
    level ctx1 = level ctx /\
    cur_ (expr_values_cache ctx1) = cur_ (expr_values_cache ctx) /\
    null_bitmap_ (expr_values_cache ctx1) = null_bitmap_ (expr_values_cache ctx) /\
    expr_values_hash_array_ (expr_values_cache ctx1) =
      <[cur_ (expr_values_cache ctx) := wrap32 h]>
        (expr_values_hash_array_ (expr_values_cache ctx)).
Proof.
  unfold EvalAndHashBuild, SetCurExprValuesHash.
  case_decide as Hlt; [|discriminate].
  destruct (key_hash row) as [h|]; simpl; [|discriminate].
  intros [= <-]. exists h. simpl. unfold CurExprValuesHash. simpl.
  rewrite list_lookup_insert_eq by exact Hlt. auto 10.
Qed.

Lemma EvalAndHashBuild_has_key row ctx b ctx1 :
  EvalAndHashBuild row ctx = Done (b, ctx1) -> b = has_key row.
Proof.
  unfold has_key. destruct b; intros E.
  - apply EvalAndHashBuild_key in E as (h & -> & _). done.
  - apply EvalAndHashBuild_null in E as [-> _]. done.
Qed.

Lemma EvalAndHashBuild_run row ctx :
  (cur_ (expr_values_cache ctx) < capacity (expr_values_cache ctx))%nat ->
  EvalAndHashBuild row ctx =
    match key_hash row with
    | None => Done (false, ctx)
    | Some h =>
        Done (true,
              with_cache ctx
                {| cur_ := cur_ (expr_values_cache ctx);
                   cur_end_ := cur_end_ (expr_values_cache ctx);
                   expr_values_hash_array_ :=
                     <[cur_ (expr_values_cache ctx) := wrap32 h]>
                       (expr_values_hash_array_ (expr_values_cache ctx));
                   null_bitmap_ := null_bitmap_ (expr_values_cache ctx) |})
    end.
Proof.
  intros Hlt. unfold EvalAndHashBuild, SetCurExprValuesHash.
  rewrite decide_True by done.
  destruct (key_hash row); [|done]. by rewrite decide_True by done.
Qed.

(** ** Lemmas on [AppendRow] *)

Lemma rows_at_set_stream_same b ref s s' :
  stream_at b ref = Some s ->
  rows_at (set_stream b ref s') ref = Some (stream_rows s').
Proof.
  unfold rows_at, stream_at, set_stream.
  destruct ref as [|i]; simpl.
  - destruct (null_aware_partition_ b); simpl; [done | discriminate].
  - rewrite list_lookup_alter_eq.
    destruct (hash_partitions_ b !! i); simpl; [done | discriminate].
Qed.

Lemma rows_at_set_stream_other b ref ref' s' :
  ref' <> ref -> rows_at (set_stream b ref s') ref' = rows_at b ref'.
Proof.
  unfold rows_at, stream_at, set_stream.
  destruct ref as [|i], ref' as [|j]; simpl; try done.
  intros Hne. rewrite list_lookup_alter_ne; [done | congruence].
Qed.

Lemma set_stream_filters b ref s : filters_ (set_stream b ref s) = filters_ b.
Proof. by destruct ref. Qed.

Lemma set_stream_hash_tbls b ref s :
  hash_tbl_ <$> hash_partitions_ (set_stream b ref s) =
    hash_tbl_ <$> hash_partitions_ b /\
  hash_tbl_ <$> null_aware_partition_ (set_stream b ref s) =
    hash_tbl_ <$> null_aware_partition_ b.
Proof.
  destruct ref as [|i]; simpl.
  - split; [done | by destruct (null_aware_partition_ b)].
  - split; [|done].
    apply list_eq; intros j. rewrite !list_lookup_fmap.
    destruct (decide (i = j)) as [->|Hne].
    + rewrite list_lookup_alter_eq. by destruct (hash_partitions_ b !! j).
    + by rewrite list_lookup_alter_ne.
Qed.

Context {L : RuntimeLaws RT} (SL : SlowPathLaws).

Lemma rows_at_stream_at b ref s :
  stream_at b ref = Some s -> rows_at b ref = Some (stream_rows s).
Proof. unfold rows_at. by intros ->. Qed.

Lemma AppendRow_rows ref r w w' :
  AppendRow ref r w = Done (OK, w') ->
  forall ref',
    rows_at (builder w') ref' =
      if decide (ref' = ref)
      then (fun l => l ++ [r]) <$> rows_at (builder w) ref'
      else rows_at (builder w) ref'.
Proof.
  unfold AppendRow.
  destruct (stream_at (builder w) ref) as [s|] eqn:Es; [|discriminate].
  destruct (AddRow s r) as [[added status] s'] eqn:Ea.
  destruct added.
  - intros [= <-] ref'. simpl. apply AddRow_true in Ea.
    destruct (decide (ref' = ref)) as [->|Hne].
    + rewrite (rows_at_set_stream_same _ _ s) by done.
      rewrite (rows_at_stream_at _ _ s) by done. simpl. by rewrite Ea.
    + by apply rows_at_set_stream_other.
  - destruct status as [|c]; simpl; [|discriminate].
    destruct (AppendRowStreamFull _ ref r) as [st b'] eqn:Ef.
    intros [= -> <-] ref'. simpl. apply AddRow_false in Ea.
    destruct (decide (ref' = ref)) as [->|Hne].
    + rewrite (slow_appends SL _ _ _ _ Ef).
      rewrite (rows_at_set_stream_same _ _ s) by done.
      rewrite (rows_at_stream_at _ _ s) by done. simpl. by rewrite Ea.
    + rewrite (slow_others SL _ _ _ _ _ Ef Hne).
      by apply rows_at_set_stream_other.
Qed.

Lemma AppendRow_frame ref r w st w' :
  AppendRow ref r w = Done (st, w') ->
  filters_ (builder w') = filters_ (builder w) /\
  hash_tbl_ <$> hash_partitions_ (builder w') =
    hash_tbl_ <$> hash_partitions_ (builder w) /\
  hash_tbl_ <$> null_aware_partition_ (builder w') =
    hash_tbl_ <$> null_aware_partition_ (builder w) /\
  ht_ctx w' = ht_ctx w.
Proof.
  unfold AppendRow.
  destruct (stream_at (builder w) ref) as [s|] eqn:Es; [|discriminate].
  destruct (AddRow s r) as [[added status] s'] eqn:Ea.
  pose proof (set_stream_hash_tbls (builder w) ref s') as [Hp Hn].
  pose proof (set_stream_filters (builder w) ref s') as Hf.
  destruct added; [intros [= <- <-]; simpl; auto|].
  destruct status as [|c]; simpl; [|intros [= <- <-]; simpl; auto].
  destruct (AppendRowStreamFull _ ref r) as [st' b'] eqn:Ef.
  intros [= <- <-]. simpl.
  pose proof (slow_filters SL _ _ _ _ _ Ef) as Hf'.
  pose proof (slow_hash_tbls SL _ _ _ _ _ Ef) as [Hp' Hn'].
  simpl in *. rewrite Hf', Hp', Hn'. auto.
Qed.

(** C8. [AppendRow] returns [OK] without a call to the slow path when the
    non-growing [AddRow] succeeds; when [AddRow] fails with a status that is
    not [OK] it returns that status, again without a call to the slow path;
    when [AddRow] fails with status [OK] (the page is full) it calls
    [AppendRowStreamFull] once and returns what that returns.  In every case
    either the row is at the end of the stream or an error is returned. *)
Theorem AppendRow_fast_then_slow ref row w s :
  stream_at (builder w) ref = Some s ->
  exists st w',
    AppendRow ref row w = Done (st, w') /\
    match AddRow s row with
    | (true, _, s') =>
        st = OK /\
        builder w' = set_stream (builder w) ref s' /\
        slow_path_calls w' = slow_path_calls w
    | (false, Error code, s') =>
        st = Error code /\
        builder w' = set_stream (builder w) ref s' /\
        slow_path_calls w' = slow_path_calls w
    | (false, OK, s') =>
        (st, builder w') =
          AppendRowStreamFull (set_stream (builder w) ref s') ref row /\
        slow_path_calls w' = slow_path_calls w ++ [(ref, row)]
    end /\
    ((st = OK /\ rows_at (builder w') ref = Some (stream_rows s ++ [row])) \/
     (exists code, st = Error code)).
Proof.
  intros Es.
  destruct (AppendRow ref row w) as [[st w']| |] eqn:E.
  2,3: unfold AppendRow in E; rewrite Es in E;
       destruct (AddRow s row) as [[[] []] ?];
       simpl in E; try discriminate;
       destruct (AppendRowStreamFull _ ref row); discriminate.
  exists st, w'. split; [done|]. split.
  - unfold AppendRow in E. rewrite Es in E.
    destruct (AddRow s row) as [[added status] s'].
    destruct added; [by injection E as <- <-|].
    destruct status as [|code]; simpl in E; [|by injection E as <- <-].
    destruct (AppendRowStreamFull _ ref row) as [st' b'].
    by injection E as <- <-.
  - destruct st as [|code]; [left|right; eauto].
    split; [done|].
    rewrite (AppendRow_rows _ _ _ _ E ref).
    rewrite decide_True by done.
    by rewrite (rows_at_stream_at _ _ s).
Qed.

(** ** One row of [ProcessBuildBatch] *)

Lemma rows_at_insert_filters r b ref :
  rows_at (insert_filters r b) ref = rows_at b ref.
Proof. by destruct ref. Qed.

Lemma destination_key r h : key_hash r = Some h -> destination r = HashRows (partition_of h).
Proof. unfold destination. by intros ->. Qed.

Lemma destination_null r : key_hash r = None -> destination r = NullAwareRows.
Proof. unfold destination. by intros ->. Qed.

Lemma process_build_row_rows bf r w w' :
  process_build_row bf r w = Done (OK, w') ->
  forall ref,
    rows_at (builder w') ref =
      if routed_to ref r
      then (fun l => l ++ [r]) <$> rows_at (builder w) ref
      else rows_at (builder w) ref.
Proof.
  unfold process_build_row, routed_to.
  destruct (EvalAndHashBuild r (ht_ctx w)) as [[[] ctx1]| |] eqn:Ee;
    simpl; try discriminate.
  - apply EvalAndHashBuild_key in Ee as (h & Hk & Hh & _).
    rewrite (destination_key _ _ Hk).
    assert (forall w2, ht_ctx w2 = ctx1 ->
              (forall ref, rows_at (builder w2) ref = rows_at (builder w) ref) ->
              (let* hash := CurExprValuesHash (expr_values_cache (ht_ctx w2)) in
               match hash_partitions_ (builder w2)
                       !! Z.to_nat (Z.shiftr hash (32 - NUM_PARTITIONING_BITS)) with
               | Some _ =>
                   AppendRow
                     (HashRows (Z.to_nat (Z.shiftr hash (32 - NUM_PARTITIONING_BITS))))
                     r w2
               | None => Fault
               end) = Done (OK, w') ->
              forall ref,
                rows_at (builder w') ref =
                  if bool_decide (HashRows (partition_of h) = ref)
                  then (fun l => l ++ [r]) <$> rows_at (builder w) ref
                  else rows_at (builder w) ref) as Hgo.
    { intros w2 Hc Hr. rewrite Hc, Hh. simpl. fold (partition_of h).
      destruct (hash_partitions_ (builder w2) !! partition_of h); [|discriminate].
      intros Ha ref. rewrite (AppendRow_rows _ _ _ _ Ha ref), !Hr.
      destruct (decide (ref = HashRows (partition_of h))) as [->|Hne].
      - by rewrite bool_decide_eq_true_2.
      - by rewrite bool_decide_eq_false_2. }
    destruct bf; simpl.
    + case_decide; simpl; [|discriminate].
      intros Hrun.
      apply (Hgo (with_builder (with_ctx w ctx1) (insert_filters r (builder w))));
        [done | intros; apply rows_at_insert_filters | exact Hrun].
    + intros Hrun. apply (Hgo (with_ctx w ctx1)); [done | done | exact Hrun].
  - apply EvalAndHashBuild_null in Ee as [Hk ->].
    rewrite (destination_null _ Hk).
    destruct (null_aware_partition_ (builder w)) as [p|] eqn:En.
    + intros Ha ref. rewrite (AppendRow_rows _ _ _ _ Ha ref). simpl.
      destruct (decide (ref = NullAwareRows)) as [->|Hne].
      * by rewrite bool_decide_eq_true_2.
      * by rewrite bool_decide_eq_false_2.
    + intros [= <-] ref. simpl.
      destruct ref as [|i]; [|by rewrite bool_decide_eq_false_2].
      unfold rows_at. simpl. by rewrite En.
Qed.

Lemma process_build_row_frame bf r w st w' :
  process_build_row bf r w = Done (st, w') ->
  filters_ (builder w') = filters_step bf r (filters_ (builder w)) /\
  hash_tbl_ <$> hash_partitions_ (builder w') =
    hash_tbl_ <$> hash_partitions_ (builder w) /\
  hash_tbl_ <$> null_aware_partition_ (builder w') =
    hash_tbl_ <$> null_aware_partition_ (builder w) /\
  level (ht_ctx w') = level (ht_ctx w).
Proof.
  unfold process_build_row, filters_step.
  destruct (EvalAndHashBuild r (ht_ctx w)) as [[b ctx1]| |] eqn:Ee;
    simpl; try discriminate.
  rewrite <- (EvalAndHashBuild_has_key _ _ _ _ Ee).
  destruct b; simpl.
  - apply EvalAndHashBuild_key in Ee as (h & Hk & Hh & Hl & _).
    rewrite andb_true_r.
    destruct bf; simpl.
    + case_decide; simpl; [|discriminate].
      rewrite Hh. simpl.
      destruct (hash_partitions_ (builder w) !! _); [|discriminate].
      intros Ha. apply AppendRow_frame in Ha as (-> & -> & -> & ->). by simpl.
    + rewrite Hh. simpl.
      destruct (hash_partitions_ (builder w) !! _); [|discriminate].
      intros Ha. apply AppendRow_frame in Ha as (-> & -> & -> & ->). by simpl.
  - apply EvalAndHashBuild_null in Ee as [Hk ->].
    rewrite andb_false_r.
    destruct (null_aware_partition_ (builder w)) as [p|] eqn:En.
    + intros Ha. apply AppendRow_frame in Ha as (-> & -> & -> & ->).
      simpl. by rewrite En.
    + intros [= <- <-]. simpl. by rewrite En.
Qed.

(** ** The loop of [ProcessBuildBatch] *)

Lemma gain_cons ref r rows :
  gain ref (r :: rows) = if routed_to ref r then r :: gain ref rows else gain ref rows.
Proof. reflexivity. Qed.

Lemma process_build_rows_rows bf rows : forall w w',
  process_build_rows bf rows w = Done (OK, w') ->
  forall ref,
    rows_at (builder w') ref = (fun l => l ++ gain ref rows) <$> rows_at (builder w) ref.
Proof.
  induction rows as [|r rows IH]; intros w w' Hrun; simpl in Hrun.
  - injection Hrun as <-. intros ref.
    destruct (rows_at (builder w) ref); simpl; [|done].
    by rewrite app_nil_r.
  - destruct (process_build_row bf r w) as [[st w1]| |] eqn:Er;
      simpl in Hrun; try discriminate.
    destruct st as [|code]; simpl in Hrun; [|discriminate].
    intros ref.
    rewrite (IH _ _ Hrun ref), (process_build_row_rows _ _ _ _ Er ref), gain_cons.
    destruct (routed_to ref r); [|done].
    destruct (rows_at (builder w) ref); simpl; [|done].
    by rewrite <- app_assoc.
Qed.

Lemma process_build_rows_filters bf rows : forall w w',
  process_build_rows bf rows w = Done (OK, w') ->
  filters_ (builder w') = filters_after bf rows (filters_ (builder w)).
Proof.
  induction rows as [|r rows IH]; intros w w'; simpl.
  - by intros [= <-].
  - destruct (process_build_row bf r w) as [[st w1]| |] eqn:Er; simpl; try discriminate.
    destruct st as [|code]; simpl; [|discriminate].
    intros Hrest. rewrite (IH _ _ Hrest).
    apply process_build_row_frame in Er as (-> & _). done.
Qed.

Lemma insert_filter_expr r fc : expr (insert_filter r fc) = expr fc.
Proof. unfold insert_filter. by destruct (local_bloom_filter fc). Qed.

Lemma insert_filter_has_bloom r fc : has_bloom (insert_filter r fc) = has_bloom fc.
Proof.
  unfold has_bloom, insert_filter.
  destruct (local_bloom_filter fc) eqn:E; simpl; by rewrite ?E.
Qed.

Lemma filters_step_frame bf r fs :
  expr <$> filters_step bf r fs = expr <$> fs /\
  has_bloom <$> filters_step bf r fs = has_bloom <$> fs.
Proof.
  unfold filters_step. destruct (bf && has_key r); [|done].
  rewrite <- !list_fmap_compose. split; apply list_fmap_ext; intros ? fc _; simpl.
  - apply insert_filter_expr.
  - apply insert_filter_has_bloom.
Qed.

Lemma process_build_rows_frame bf rows : forall w st w',
  process_build_rows bf rows w = Done (st, w') ->
  same_frame (builder w) (builder w') /\
  (bf = false -> filters_ (builder w') = filters_ (builder w)) /\
  level (ht_ctx w') = level (ht_ctx w).
Proof.
  unfold same_frame.
  induction rows as [|r rows IH]; intros w st w'; simpl.
  - by intros [= <- <-].
  - destruct (process_build_row bf r w) as [[st1 w1]| |] eqn:Er; simpl; try discriminate.
    apply process_build_row_frame in Er as (Hf & Hp & Hn & Hl).
    destruct (filters_step_frame bf r (filters_ (builder w))) as [He Hc].
    assert (bf = false -> filters_ (builder w1) = filters_ (builder w)) as Hoff.
    { intros ->. by rewrite Hf. }
    destruct st1 as [|code]; simpl.
    + intros Hrest. apply IH in Hrest as ((-> & -> & -> & ->) & Hoff' & ->).
      rewrite Hf, He, Hc, Hp, Hn, Hl. repeat split; try done.
      intros ->. rewrite Hoff' by done. by apply Hoff.
    + intros [= <- <-]. rewrite Hf, He, Hc, Hp, Hn, Hl. repeat split; try done.
      intros ->. by rewrite <- Hf.
Qed.

(** ** [ProcessBuildBatch] *)

Lemma ProcessBuildBatch_rows batch bf w w' :
  ProcessBuildBatch batch bf w = Done (OK, w') ->
  forall ref,
    rows_at (builder w') ref = (fun l => l ++ gain ref batch) <$> rows_at (builder w) ref.
Proof.
  unfold ProcessBuildBatch. intros Hrun ref.
  by rewrite (process_build_rows_rows _ _ _ _ Hrun ref).
Qed.

Lemma gain_split ref pre r post :
  gain ref (pre ++ r :: post) =
    gain ref pre ++ (if routed_to ref r then [r] else []) ++ gain ref post.
Proof.
  unfold gain. rewrite List.filter_app. simpl.
  by destruct (routed_to ref r).
Qed.

Lemma routed_to_destination r : routed_to (destination r) r = true.
Proof. unfold routed_to. by apply bool_decide_eq_true_2. Qed.

Lemma routed_to_other ref r : ref <> destination r -> routed_to ref r = false.
Proof. unfold routed_to. intros H. by apply bool_decide_eq_false_2. Qed.

Lemma wrap32_range z : 0 <= wrap32 z < 2 ^ 32.
Proof. unfold wrap32. apply Z.mod_pos_bound. lia. Qed.

Lemma partition_idx_range hash :
  0 < NUM_PARTITIONING_BITS <= 32 ->
  0 <= hash < 2 ^ 32 ->
  0 <= Z.shiftr hash (32 - NUM_PARTITIONING_BITS) < 2 ^ NUM_PARTITIONING_BITS.
Proof.
  intros HB Hh. rewrite Z.shiftr_div_pow2 by lia.
  assert (0 < 2 ^ (32 - NUM_PARTITIONING_BITS)) by (apply Z.pow_pos_nonneg; lia).
  split; [apply Z.div_pos; lia|].
  apply Z.div_lt_upper_bound; [lia|].
  rewrite <- Z.pow_add_r by lia.
  replace (32 - NUM_PARTITIONING_BITS + NUM_PARTITIONING_BITS) with 32 by lia.
  lia.
Qed.

Lemma partition_of_bound h :
  0 < NUM_PARTITIONING_BITS <= 32 ->
  (partition_of h < Z.to_nat (2 ^ NUM_PARTITIONING_BITS))%nat.
Proof.
  intros HB. unfold partition_of.
  pose proof (partition_idx_range (wrap32 h) HB (wrap32_range h)). lia.
Qed.

Lemma rows_at_hash_partition b p :
  (p < length (hash_partitions_ b))%nat ->
  exists s0, rows_at b (HashRows p) = Some s0.
Proof.
  intros Hp. apply lookup_lt_is_Some_2 in Hp as [x Hx].
  unfold rows_at. simpl. rewrite Hx. simpl. eauto.
Qed.

(** C1. On a batch that [ProcessBuildBatch] processes with success, a row
    whose join keys are not NULL is appended to the stream of the hash
    partition whose index is the 32-bit hash of its keys shifted right by
    32 - B, and to no other stream: that stream gains the rows routed to it
    before the row, then the row, then those routed to it after; the index
    is below 2^B, the number of partitions, which does not change. *)
Theorem ProcessBuildBatch_routes_by_top_bits batch bf w w' :
  0 < NUM_PARTITIONING_BITS <= 32 ->
  length (hash_partitions_ (builder w)) = Z.to_nat (2 ^ NUM_PARTITIONING_BITS) ->
  ProcessBuildBatch batch bf w = Done (OK, w') ->
  length (hash_partitions_ (builder w')) = Z.to_nat (2 ^ NUM_PARTITIONING_BITS) /\
  forall pre r post h,
    batch = pre ++ r :: post ->
    key_hash r = Some h ->
    let p := Z.to_nat (Z.shiftr (wrap32 h) (32 - NUM_PARTITIONING_BITS)) in
    (p < Z.to_nat (2 ^ NUM_PARTITIONING_BITS))%nat /\
    (exists s0,
       rows_at (builder w) (HashRows p) = Some s0 /\
       rows_at (builder w') (HashRows p) =
         Some (s0 ++ gain (HashRows p) pre ++ r :: gain (HashRows p) post)) /\
    (forall ref, ref <> HashRows p ->
       rows_at (builder w') ref =
         (fun l => l ++ gain ref pre ++ gain ref post) <$> rows_at (builder w) ref).
Proof.
  intros HB Hlen Hrun. split.
  - unfold ProcessBuildBatch in Hrun.
    apply process_build_rows_frame in Hrun as ((Hp & _) & _).
    simpl in Hp. apply (f_equal length) in Hp.
    rewrite !length_fmap in Hp. lia.
  - intros pre r post h -> Hk p.
    fold (partition_of h) in p. subst p.
    pose proof (partition_of_bound h HB) as Hlt.
    pose proof (destination_key _ _ Hk) as Hd.
    split; [done|]. split.
    + destruct (rows_at_hash_partition (builder w) (partition_of h)) as [s0 Hs0];
        [lia|].
      exists s0. split; [done|].
      rewrite (ProcessBuildBatch_rows _ _ _ _ Hrun), Hs0, gain_split.
      by rewrite <- Hd, routed_to_destination.
    + intros ref Hne.
      rewrite (ProcessBuildBatch_rows _ _ _ _ Hrun), gain_split.
      rewrite routed_to_other by congruence. done.
Qed.

(** C5. On a batch that [ProcessBuildBatch] processes with success, a row
    whose join keys are NULL is appended to the stream of the null-aware
    partition when there is one; when there is none the row is dropped and
    there is still none afterwards; in both cases no hash partition
    receives the row. *)
Theorem ProcessBuildBatch_null_keys batch bf w w' :
  ProcessBuildBatch batch bf w = Done (OK, w') ->
  forall pre r post,
    batch = pre ++ r :: post ->
    key_hash r = None ->
    (forall s0,
       rows_at (builder w) NullAwareRows = Some s0 ->
       rows_at (builder w') NullAwareRows =
         Some (s0 ++ gain NullAwareRows pre ++ r :: gain NullAwareRows post)) /\
    (null_aware_partition_ (builder w) = None ->
     null_aware_partition_ (builder w') = None) /\
    (forall p,
       rows_at (builder w') (HashRows p) =
         (fun l => l ++ gain (HashRows p) pre ++ gain (HashRows p) post)
           <$> rows_at (builder w) (HashRows p)).
Proof.
  intros Hrun pre r post -> Hk.
  pose proof (destination_null _ Hk) as Hd.
  split; [|split].
  - intros s0 Hs0.
    rewrite (ProcessBuildBatch_rows _ _ _ _ Hrun), Hs0, gain_split.
    by rewrite <- Hd, routed_to_destination.
  - intros Hnone.
    pose proof (ProcessBuildBatch_rows _ _ _ _ Hrun NullAwareRows) as Hr.
    unfold rows_at in Hr. simpl in Hr. rewrite Hnone in Hr. simpl in Hr.
    by destruct (null_aware_partition_ (builder w')).
  - intros p.
    rewrite (ProcessBuildBatch_rows _ _ _ _ Hrun), gain_split.
    rewrite routed_to_other by congruence. done.
Qed.

(** ** The filters *)

Lemma insert_filter_eq r fc :
  insert_filter r fc =
    {| expr := expr fc;
       local_bloom_filter :=
         (fun b => BloomFilter_Insert b (filter_hash_of (expr fc) r))
           <$> local_bloom_filter fc |}.
Proof.
  unfold insert_filter, filter_hash_of. destruct fc as [e [b|]]; reflexivity.
Qed.

Lemma filters_after_lookup rows : forall fs i fc,
  fs !! i = Some fc ->
  filters_after true rows fs !! i =
    Some {| expr := expr fc;
            local_bloom_filter :=
              (fun b => fold_left BloomFilter_Insert
                          (filter_hash_of (expr fc) <$> List.filter has_key rows) b)
                <$> local_bloom_filter fc |}.
Proof.
  unfold filters_after.
  induction rows as [|r rows IH]; intros fs i fc Hi; simpl.
  - rewrite Hi. destruct fc as [e [b|]]; reflexivity.
  - unfold filters_step at 2. simpl. destruct (has_key r); [|by apply IH].
    rewrite (IH _ i (insert_filter r fc)).
    + rewrite insert_filter_eq. simpl. by destruct (local_bloom_filter fc).
    + by rewrite list_lookup_fmap, Hi.
Qed.

Lemma Find_fold_mono hs : forall b x,
  Find b x = true -> Find (fold_left BloomFilter_Insert hs b) x = true.
Proof.
  induction hs as [|h hs IH]; intros b x Hx; simpl; [done|].
  apply IH. by apply Find_mono.
Qed.

Lemma Find_fold_In hs : forall b x,
  In x hs -> Find (fold_left BloomFilter_Insert hs b) x = true.
Proof.
  induction hs as [|h hs IH]; intros b x; simpl; [done|].
  intros [->|Hin]; [|by apply IH].
  apply Find_fold_mono, Find_Insert.
Qed.

Lemma ProcessBuildBatch_filters batch bf w w' :
  ProcessBuildBatch batch bf w = Done (OK, w') ->
  filters_ (builder w') = filters_after bf batch (filters_ (builder w)).
Proof.
  unfold ProcessBuildBatch. intros Hrun.
  by rewrite (process_build_rows_filters _ _ _ _ Hrun).
Qed.

(** A run that builds filters and meets a row with a key is a run at
    level 0: otherwise the check on the level stops it. *)
Lemma process_build_row_level r w st w' :
  process_build_row true r w = Done (st, w') ->
  has_key r = true ->
  level (ht_ctx w) = 0%nat.
Proof.
  unfold process_build_row.
  destruct (EvalAndHashBuild r (ht_ctx w)) as [[b ctx1]| |] eqn:Ee;
    simpl; try discriminate.
  pose proof (EvalAndHashBuild_has_key _ _ _ _ Ee) as Hb.
  intros Hrun Hk. rewrite Hk in Hb. subst b. simpl in Hrun.
  apply EvalAndHashBuild_key in Ee as (h & _ & _ & Hl & _).
  case_decide; [congruence | discriminate].
Qed.

(** The same for a batch.  This is a fact of the model, where the check on
    the level is enforced as it is in a debug build; a release build drops
    the check, so nothing here says what it does above level 0. *)
Lemma ProcessBuildBatch_builds_filters_at_level_0 batch w w' :
  ProcessBuildBatch batch true w = Done (OK, w') ->
  (exists r, In r batch /\ has_key r = true) ->
  level (ht_ctx w) = 0%nat.
Proof.
  unfold ProcessBuildBatch. intros Hrun (r & Hin & Hk).
  change (level (ht_ctx w)) with
    (level (ht_ctx (with_ctx w (with_cache (ht_ctx w)
                                  (Reset (expr_values_cache (ht_ctx w))))))).
  revert Hrun Hin.
  generalize (with_ctx w (with_cache (ht_ctx w)
                            (Reset (expr_values_cache (ht_ctx w))))).
  induction batch as [|r0 batch IH]; intros w0 Hrun Hin; [done|].
  simpl in Hrun.
  destruct (process_build_row true r0 w0) as [[st w1]| |] eqn:Er;
    simpl in Hrun; try discriminate.
  destruct st; simpl in Hrun; [|discriminate].
  destruct Hin as [->|Hin].
  - by apply (process_build_row_level _ _ _ _ Er).
  - apply process_build_row_frame in Er as (_ & _ & _ & <-).
    by apply IH.
Qed.

(** C3. After [ProcessBuildBatch] has returned [OK] for a batch it was given
    with [build_filters] true, every filter that has a bloom filter holds
    that bloom filter with, inserted in it, the 32-bit hash (under the
    default seed) of the filter expression on each row of the batch whose
    join keys are not NULL, and of those rows only: a row with a NULL key
    inserts nothing.  So the bloom filter answers true for the hash of every
    such row. *)
Theorem ProcessBuildBatch_fills_filters batch w w' :
  ProcessBuildBatch batch true w = Done (OK, w') ->
  forall i fc bf0,
    filters_ (builder w) !! i = Some fc ->
    local_bloom_filter fc = Some bf0 ->
    exists bf1,
      filters_ (builder w') !! i =
        Some {| expr := expr fc; local_bloom_filter := Some bf1 |} /\
      bf1 = fold_left BloomFilter_Insert
              (filter_hash_of (expr fc) <$> List.filter has_key batch) bf0 /\
      (forall r, In r batch -> has_key r = true ->
         Find bf1 (filter_hash_of (expr fc) r) = true).
Proof.
  intros Hrun i fc bf0 Hi Hb.
  eexists. split; [|split; [reflexivity|]].
  - rewrite (ProcessBuildBatch_filters _ _ _ _ Hrun).
    rewrite (filters_after_lookup _ _ _ _ Hi), Hb. reflexivity.
  - intros r Hin Hk. apply Find_fold_In.
    apply in_map. apply List.filter_In. auto.
Qed.

(** C10. With [build_filters] true, a row whose join keys are not NULL but
    whose filter expression evaluates to NULL is not skipped: the 32-bit
    hash of the NULL value is inserted in the bloom filter of that
    expression, between the hashes of the rows before and after it. *)
Theorem ProcessBuildBatch_hashes_null_filter_value pre r post w w' :
  ProcessBuildBatch (pre ++ r :: post) true w = Done (OK, w') ->
  forall h i fc bf0,
    key_hash r = Some h ->
    filters_ (builder w) !! i = Some fc ->
    local_bloom_filter fc = Some bf0 ->
    GetValue (expr fc) r = None ->
    let null_hash := wrap32 (GetHashValue None (root_type (expr fc)) DefaultHashSeed) in
    exists bf1,
      filters_ (builder w') !! i =
        Some {| expr := expr fc; local_bloom_filter := Some bf1 |} /\
      bf1 = fold_left BloomFilter_Insert
              (filter_hash_of (expr fc) <$> List.filter has_key post)
              (BloomFilter_Insert
                 (fold_left BloomFilter_Insert
                    (filter_hash_of (expr fc) <$> List.filter has_key pre) bf0)
                 null_hash) /\
      Find bf1 null_hash = true.
Proof.
  intros Hrun h i fc bf0 Hk Hi Hb Hv null_hash.
  assert (filter_hash_of (expr fc) r = null_hash) as Hnull.
  { unfold filter_hash_of, null_hash. by rewrite Hv. }
  eexists. split; [|split; [reflexivity|]].
  - rewrite (ProcessBuildBatch_filters _ _ _ _ Hrun).
    rewrite (filters_after_lookup _ _ _ _ Hi), Hb. simpl.
    rewrite List.filter_app. simpl. unfold has_key at 2. rewrite Hk.
    rewrite fmap_app, fold_left_app. simpl. rewrite Hnull. reflexivity.
  - apply Find_fold_mono, Find_Insert.
Qed.

(** C9. Whatever status [ProcessBuildBatch] returns, the builder differs
    from the one it started with in the rows of its streams and the contents
    of its bloom filters only: the partitions and their hash tables, the
    presence of the null-aware partition and the expressions and presence of
    the filters are as before; and with [build_filters] false the filters,
    bloom filters included, are unchanged altogether. *)
Theorem ProcessBuildBatch_frame batch bf w st w' :
  ProcessBuildBatch batch bf w = Done (st, w') ->
  (bf = false -> filters_ (builder w') = filters_ (builder w)) /\
  same_frame (builder w) (builder w').
Proof.
  unfold ProcessBuildBatch. intros Hrun.
  apply process_build_rows_frame in Hrun as (Hframe & Hoff & _).
  split; [exact Hoff | exact Hframe].
Qed.

(** ** [ProcessBuildBatch] always returns *)

Lemma AppendRow_returns ref r w :
  is_Some (stream_at (builder w) ref) ->
  exists st w', AppendRow ref r w = Done (st, w') /\ ht_ctx w' = ht_ctx w.
Proof.
  intros [s Hs]. unfold AppendRow. rewrite Hs.
  destruct (AddRow s r) as [[[] status] s']; [by eexists _, _|].
  destruct status; simpl; [|by eexists _, _].
  destruct (AppendRowStreamFull _ ref r) as [st b']. by eexists _, _.
Qed.

Lemma process_build_row_returns bf r w :
  0 < NUM_PARTITIONING_BITS <= 32 ->
  build_ready bf w ->
  exists st w', process_build_row bf r w = Done (st, w') /\ build_ready bf w'.
Proof.
  intros HB Hready.
  assert (exists st w', process_build_row bf r w = Done (st, w') /\
            cur_ (expr_values_cache (ht_ctx w')) =
              cur_ (expr_values_cache (ht_ctx w)) /\
            capacity (expr_values_cache (ht_ctx w')) =
              capacity (expr_values_cache (ht_ctx w)))
    as (st & w' & Hrun & Hcur & Hcap).
  { destruct Hready as (Hc & Hn & Hl).
    unfold process_build_row. rewrite EvalAndHashBuild_run by done.
    destruct (key_hash r) as [h|]; cbn [bind negb].
    - assert (forall w2,
                ht_ctx w2 =
                  with_cache (ht_ctx w)
                    {| cur_ := cur_ (expr_values_cache (ht_ctx w));
                       cur_end_ := cur_end_ (expr_values_cache (ht_ctx w));
                       expr_values_hash_array_ :=
                         <[cur_ (expr_values_cache (ht_ctx w)) := wrap32 h]>
                           (expr_values_hash_array_ (expr_values_cache (ht_ctx w)));
                       null_bitmap_ := null_bitmap_ (expr_values_cache (ht_ctx w)) |} ->
                length (hash_partitions_ (builder w2)) =
                  Z.to_nat (2 ^ NUM_PARTITIONING_BITS) ->
                exists st w',
                  (let* hash := CurExprValuesHash (expr_values_cache (ht_ctx w2)) in
                   match hash_partitions_ (builder w2)
                           !! Z.to_nat (Z.shiftr hash (32 - NUM_PARTITIONING_BITS)) with
                   | Some _ =>
                       AppendRow
                         (HashRows
                            (Z.to_nat (Z.shiftr hash (32 - NUM_PARTITIONING_BITS))))
                         r w2
                   | None => Fault
                   end) = Done (st, w') /\
                  cur_ (expr_values_cache (ht_ctx w')) =
                    cur_ (expr_values_cache (ht_ctx w)) /\
                  capacity (expr_values_cache (ht_ctx w')) =
                    capacity (expr_values_cache (ht_ctx w))) as Hgo.
      { intros w2 Hctx Hlen. rewrite Hctx. unfold CurExprValuesHash. simpl.
        rewrite list_lookup_insert_eq by done. cbn [bind].
        fold (partition_of h).
        pose proof (partition_of_bound h HB) as Hlt.
        destruct (lookup_lt_is_Some_2 (hash_partitions_ (builder w2)) (partition_of h))
          as [p Hp]; [lia|].
        rewrite Hp.
        destruct (AppendRow_returns (HashRows (partition_of h)) r w2)
          as (st & w' & Hrun & Hsame).
        { simpl. rewrite Hp. simpl. eauto. }
        exists st, w'. rewrite Hrun, Hsame, Hctx. unfold capacity. simpl.
        by rewrite length_insert. }
      destruct bf; cbn [bind].
      + rewrite decide_True by (by apply Hl). cbn [bind].
        apply (Hgo (with_builder (with_ctx w _) (insert_filters r (builder w))));
          [reflexivity | exact Hn].
      + apply (Hgo (with_ctx w _)); [reflexivity | exact Hn].
    - cbn [with_ctx builder].
      destruct (null_aware_partition_ (builder w)) as [p|] eqn:En.
      + destruct (AppendRow_returns NullAwareRows r (with_ctx w (ht_ctx w)))
          as (st & w' & Hrun & Hsame).
        { simpl. rewrite En. simpl. eauto. }
        exists st, w'. by rewrite Hrun, Hsame.
      + by eexists _, _. }
  exists st, w'. split; [exact Hrun|].
  destruct (process_build_row_frame _ _ _ _ _ Hrun) as (_ & Hp & _ & Hlvl).
  destruct Hready as (Hc & Hn & Hl).
  apply (f_equal length) in Hp. rewrite !length_fmap in Hp.
  unfold build_ready. rewrite Hcur, Hcap, Hlvl, Hp. done.
Qed.

Lemma process_build_rows_returns bf rows : forall w,
  0 < NUM_PARTITIONING_BITS <= 32 ->
  build_ready bf w ->
  exists st w', process_build_rows bf rows w = Done (st, w').
Proof.
  induction rows as [|r rows IH]; intros w HB Hready; simpl.
  - by eexists _, _.
  - destruct (process_build_row_returns bf r w HB Hready)
      as (st & w1 & -> & Hready1). simpl.
    destruct (ok st); [by apply IH | by eexists _, _].
Qed.

(** With at least one slot in the cache, 2^B hash partitions and filters
    built at level 0 only, [ProcessBuildBatch] returns a status for every
    batch: it neither faults nor fails to return. *)
Lemma ProcessBuildBatch_returns batch bf w :
  0 < NUM_PARTITIONING_BITS <= 32 ->
  (1 <= capacity (expr_values_cache (ht_ctx w)))%nat ->
  length (hash_partitions_ (builder w)) = Z.to_nat (2 ^ NUM_PARTITIONING_BITS) ->
  (bf = true -> level (ht_ctx w) = 0%nat) ->
  exists st w', ProcessBuildBatch batch bf w = Done (st, w').
Proof.
  intros HB HC Hn Hl. unfold ProcessBuildBatch.
  apply process_build_rows_returns; [done|].
  unfold build_ready. simpl. split_and!; done.
Qed.

(** ** Errors of [AppendRow] *)

Lemma process_build_rows_app bf pre : forall rest w,
  process_build_rows bf (pre ++ rest) w =
    let* (status, w') := process_build_rows bf pre w in
    if ok status then process_build_rows bf rest w' else Done (status, w').
Proof.
  induction pre as [|r pre IH]; intros rest w; simpl.
  - by destruct (process_build_rows bf rest w) as [[? ?]| |].
  - destruct (process_build_row bf r w) as [[st w1]| |]; simpl; try done.
    destruct (ok st) eqn:E; simpl; [apply IH | by rewrite E].
Qed.

(** A row ends with an error only through its one [AppendRow] call: the
    call on the stream the row is routed to, in the builder the loop has
    reached, with the hashes of this row in the filters when it has a key
    and filters are built. *)
Lemma process_build_row_error bf r w code w' :
  process_build_row bf r w = Done (Error code, w') ->
  exists w1,
    AppendRow (destination r) r w1 = Done (Error code, w') /\
    slow_path_calls w1 = slow_path_calls w /\
    builder w1 =
      if bf && has_key r then insert_filters r (builder w) else builder w.
Proof.
  unfold process_build_row.
  destruct (EvalAndHashBuild r (ht_ctx w)) as [[[] ctx1]| |] eqn:Ee;
    simpl; try discriminate.
  - apply EvalAndHashBuild_key in Ee as (h & Hk & Hh & _).
    rewrite (destination_key _ _ Hk). unfold has_key. rewrite Hk, andb_true_r.
    destruct bf; simpl.
    + case_decide; simpl; [|discriminate].
      rewrite Hh. simpl. fold (partition_of h).
      destruct (hash_partitions_ (builder w) !! _); [|discriminate].
      intros Ha. eexists. split; [exact Ha|]. done.
    + rewrite Hh. simpl. fold (partition_of h).
      destruct (hash_partitions_ (builder w) !! _); [|discriminate].
      intros Ha. eexists. split; [exact Ha|]. done.
  - apply EvalAndHashBuild_null in Ee as [Hk ->].
    rewrite (destination_null _ Hk). unfold has_key. rewrite Hk, andb_false_r.
    destruct (null_aware_partition_ (builder w)); [|discriminate].
    intros Ha. eexists. split; [exact Ha|]. done.
Qed.

(** ** Counting the rows of a batch *)

Lemma sum_list_with_pointwise {A} (f : A -> nat) (g : nat -> nat) (l : list A) :
  forall l' k,
    length l = length l' ->
    (forall i x x', l !! i = Some x -> l' !! i = Some x' ->
                    f x' = (f x + g (k + i)%nat)%nat) ->
    sum_list_with f l' =
      (sum_list_with f l + sum_list_with g (seq k (length l)))%nat.
Proof.
  induction l as [|x l IH]; intros [|x' l'] k Hlen Hpt; simpl in *; try done.
  rewrite (IH l' (S k)).
  - specialize (Hpt 0%nat x x' eq_refl eq_refl).
    rewrite Nat.add_0_r in Hpt. lia.
  - lia.
  - intros i y y' Hy Hy'. rewrite (Hpt (S i) y y' Hy Hy'). f_equal. f_equal. lia.
Qed.

Lemma sum_list_with_add {A} (f g : A -> nat) (l : list A) :
  sum_list_with (fun x => (f x + g x)%nat) l =
    (sum_list_with f l + sum_list_with g l)%nat.
Proof. induction l as [|x l IH]; simpl; lia. Qed.

Lemma sum_list_with_pointwise_eq {A} (f g : A -> nat) (l : list A) :
  (forall x, f x = g x) -> sum_list_with f l = sum_list_with g l.
Proof. intros Hfg. induction l as [|x l IH]; simpl; [done|]. by rewrite Hfg, IH. Qed.

Lemma sum_list_with_one_hit (d : nat) n : forall k,
  sum_list_with (fun p => if decide (p = d) then 1%nat else 0%nat) (seq k n) =
    if decide (k <= d < k + n)%nat then 1%nat else 0%nat.
Proof.
  induction n as [|n IH]; intros k; simpl.
  - by rewrite decide_False by lia.
  - rewrite IH. repeat case_decide; lia.
Qed.

Lemma sum_list_with_no_hit {A} (l : list A) :
  sum_list_with (fun _ => 0%nat) l = 0%nat.
Proof. induction l; simpl; lia. Qed.

Lemma gain_hash_total n rows :
  (forall h, (partition_of h < n)%nat) ->
  sum_list_with (fun p => length (gain (HashRows p) rows)) (seq 0 n) =
    length (List.filter has_key rows).
Proof.
  intros Hn. induction rows as [|r rows IH].
  - apply sum_list_with_no_hit.
  - rewrite (sum_list_with_pointwise_eq _
               (fun p => ((if decide (destination r = HashRows p) then 1 else 0) +
                          length (gain (HashRows p) rows))%nat)).
    2: { intros p. rewrite gain_cons. unfold routed_to.
         destruct (decide (destination r = HashRows p)) as [He|Hne].
         - by rewrite bool_decide_eq_true_2.
         - by rewrite bool_decide_eq_false_2. }
    rewrite sum_list_with_add, IH. simpl.
    unfold has_key at 2. unfold destination.
    destruct (key_hash r) as [h|]; simpl.
    + rewrite (sum_list_with_pointwise_eq _
                 (fun p => if decide (p = partition_of h) then 1%nat else 0%nat)).
      2: { intros p. repeat case_decide; congruence. }
      rewrite sum_list_with_one_hit. specialize (Hn h).
      rewrite decide_True by lia. done.
    + by rewrite sum_list_with_no_hit.
Qed.

Lemma gain_null_aware rows :
  gain NullAwareRows rows = List.filter (fun r => negb (has_key r)) rows.
Proof.
  unfold gain. apply List.filter_ext. intros r.
  unfold routed_to, has_key, destination.
  by destruct (key_hash r).
Qed.

Lemma sublist_gain ref rows : sublist (gain ref rows) rows.
Proof.
  induction rows as [|r rows IH]; [constructor|].
  rewrite gain_cons. destruct (routed_to ref r); by constructor.
Qed.

(** C6, as the code has it.  On a batch that [ProcessBuildBatch] processes
    with success, the streams of the 2^B hash partitions and of the
    null-aware partition together gain one row for each row of the batch,
    less the rows with a NULL key when there is no null-aware partition
    (these are dropped); and what each stream gains is a subsequence of the
    batch, in the order of the batch. *)
Theorem ProcessBuildBatch_counts_rows batch bf w w' :
  0 < NUM_PARTITIONING_BITS <= 32 ->
  length (hash_partitions_ (builder w)) = Z.to_nat (2 ^ NUM_PARTITIONING_BITS) ->
  ProcessBuildBatch batch bf w = Done (OK, w') ->
  (total_rows (builder w') + dropped (builder w) batch =
     total_rows (builder w) + length batch)%nat /\
  forall ref, exists appended,
    rows_at (builder w') ref = (fun l => l ++ appended) <$> rows_at (builder w) ref /\
    sublist appended batch.
Proof.
  intros HB Hlen Hrun.
  pose proof (ProcessBuildBatch_rows _ _ _ _ Hrun) as Hrows.
  split.
  2: { intros ref. exists (gain ref batch). split; [apply Hrows | apply sublist_gain]. }
  assert (length (hash_partitions_ (builder w)) =
          length (hash_partitions_ (builder w'))) as Hlen'.
  { unfold ProcessBuildBatch in Hrun.
    apply process_build_rows_frame in Hrun as ((Hp & _) & _).
    simpl in Hp. apply (f_equal length) in Hp.
    by rewrite !length_fmap in Hp. }
  unfold total_rows, dropped.
  rewrite (sum_list_with_pointwise stream_length
             (fun p => length (gain (HashRows p) batch))
             (hash_partitions_ (builder w)) (hash_partitions_ (builder w')) 0 Hlen').
  2: { intros i x x' Hx Hx'. specialize (Hrows (HashRows i)).
       unfold rows_at in Hrows. simpl in Hrows. rewrite Hx, Hx' in Hrows.
       simpl in Hrows. injection Hrows as Hrows.
       unfold stream_length. rewrite Hrows, length_app. done. }
  rewrite Hlen, gain_hash_total by (intros h; by apply partition_of_bound).
  specialize (Hrows NullAwareRows). rewrite gain_null_aware in Hrows.
  unfold rows_at in Hrows. simpl in Hrows.
  pose proof (List.filter_length has_key batch) as Hsplit.
  destruct (null_aware_partition_ (builder w)) as [p|],
           (null_aware_partition_ (builder w')) as [p'|];
    simpl in *; try discriminate; [|lia].
  injection Hrows as Hrows. unfold stream_length at 2.
  rewrite Hrows, length_app. fold (stream_length p). lia.
Qed.

(** ** The two passes of a prefetch group *)

Lemma slots_hold_snoc c ws r :
  slots_hold c ws ->
  null_bitmap_ c !! length ws = Some (negb (has_key r)) ->
  (forall h, key_hash r = Some h ->
     expr_values_hash_array_ c !! length ws = Some (wrap32 h)) ->
  slots_hold c (ws ++ [r]).
Proof.
  intros Hws Hn Hh j r' Hj.
  destruct (decide (j < length ws)%nat) as [Hlt|Hge].
  - rewrite lookup_app_l in Hj by done. by apply Hws.
  - rewrite lookup_app_r in Hj by lia.
    destruct (j - length ws)%nat as [|k] eqn:Ek; simpl in Hj; [|done].
    injection Hj as <-. by replace j with (length ws) by lia.
Qed.

Lemma slots_hold_arrays c c' rows :
  expr_values_hash_array_ c' = expr_values_hash_array_ c ->
  null_bitmap_ c' = null_bitmap_ c ->
  slots_hold c rows -> slots_hold c' rows.
Proof. unfold slots_hold. by intros -> ->. Qed.

Lemma slots_hold_agree c c' ws :
  slots_hold c ws ->
  (forall j, (j < length ws)%nat ->
     expr_values_hash_array_ c' !! j = expr_values_hash_array_ c !! j /\
     null_bitmap_ c' !! j = null_bitmap_ c !! j) ->
  slots_hold c' ws.
Proof.
  intros Hws Hsame j r Hj.
  pose proof (lookup_lt_Some _ _ _ Hj) as Hlt.
  destruct (Hsame j Hlt) as [-> ->]. by apply Hws.
Qed.

Lemma keyed_hashes_cons r rows :
  keyed_hashes (r :: rows) =
    match key_hash r with
    | Some h => wrap32 h :: keyed_hashes rows
    | None => keyed_hashes rows
    end.
Proof. unfold keyed_hashes. simpl. by destruct (key_hash r). Qed.

Lemma prefetch_rows_cons mode r rows w :
  (cur_ (ins_cache w) < capacity (ins_cache w))%nat ->
  length (null_bitmap_ (ins_cache w)) = capacity (ins_cache w) ->
  is_Some (hash_tbl_ (this w)) ->
  prefetch_rows mode (r :: rows) w =
    prefetch_rows mode rows
      {| this := this w;
         ins_ctx := with_cache (ins_ctx w) (write_slot r (ins_cache w));
         prefetched :=
           prefetched w ++
           (if prefetch_enabled mode then keyed_hashes [r] else []) |}.
Proof.
  intros Hlt Hnl [ht Hht]. cbn [prefetch_rows].
  unfold ins_cache in *.
  rewrite EvalAndHashBuild_run by done.
  rewrite keyed_hashes_cons. unfold write_slot.
  destruct (key_hash r) as [h|]; cbn [bind].
  - destruct (prefetch_enabled mode); cbn [bind this].
    + rewrite Hht. unfold ins_cache, CurExprValuesHash. simpl.
      rewrite list_lookup_insert_eq by done. reflexivity.
    + rewrite app_nil_r. reflexivity.
  - unfold ins_cache, SetRowNull. simpl.
    rewrite decide_True by lia. simpl.
    destruct (prefetch_enabled mode); rewrite app_nil_r; reflexivity.
Qed.

Lemma write_slot_facts r c :
  cur_ (write_slot r c) = S (cur_ c) /\
  capacity (write_slot r c) = capacity c /\
  length (null_bitmap_ (write_slot r c)) = length (null_bitmap_ c) /\
  cur_end_ (write_slot r c) = cur_end_ c.
Proof.
  unfold write_slot, capacity.
  destruct (key_hash r); simpl; rewrite ?length_insert; auto.
Qed.

Lemma write_slot_slots r c ws :
  cur_ c = length ws ->
  (cur_ c < capacity c)%nat ->
  length (null_bitmap_ c) = capacity c ->
  null_bitmap_ c !! cur_ c = Some false ->
  slots_hold c ws ->
  slots_hold (write_slot r c) (ws ++ [r]).
Proof.
  intros Hcur Hlt Hnl Hfalse Hws.
  apply slots_hold_snoc.
  - unfold write_slot.
    destruct (key_hash r); apply (slots_hold_agree c); try done;
      intros j Hj; simpl; rewrite ?list_lookup_insert_ne by lia; done.
  - rewrite <- Hcur. unfold write_slot, has_key.
    destruct (key_hash r); simpl; [done|].
    apply list_lookup_insert_eq. lia.
  - intros h Hk. rewrite <- Hcur. unfold write_slot. rewrite Hk. simpl.
    by apply list_lookup_insert_eq.
Qed.

Lemma write_slot_later r c j :
  (cur_ c < j)%nat ->
  null_bitmap_ (write_slot r c) !! j = null_bitmap_ c !! j.
Proof.
  intros Hj. unfold write_slot.
  destruct (key_hash r); simpl; [done|].
  apply list_lookup_insert_ne. lia.
Qed.

Lemma prefetch_rows_spec mode rows : forall ws w,
  cur_ (ins_cache w) = length ws ->
  length (null_bitmap_ (ins_cache w)) = capacity (ins_cache w) ->
  (length ws + length rows <= capacity (ins_cache w))%nat ->
  (forall j, (length ws <= j)%nat -> (j < capacity (ins_cache w))%nat ->
     null_bitmap_ (ins_cache w) !! j = Some false) ->
  slots_hold (ins_cache w) ws ->
  is_Some (hash_tbl_ (this w)) ->
  exists w',
    prefetch_rows mode rows w = Done w' /\
    this w' = this w /\
    level (ins_ctx w') = level (ins_ctx w) /\
    prefetched w' =
      prefetched w ++ (if prefetch_enabled mode then keyed_hashes rows else []) /\
    cur_ (ins_cache w') = (length ws + length rows)%nat /\
    capacity (ins_cache w') = capacity (ins_cache w) /\
    slots_hold (ins_cache w') (ws ++ rows).
Proof.
  induction rows as [|r rows IH]; intros ws w Hcur Hnl Hcap Hfalse Hws Hht.
  - exists w. simpl. rewrite !app_nil_r, Nat.add_0_r.
    destruct (prefetch_enabled mode); rewrite ?app_nil_r; auto 10.
  - simpl in Hcap.
    rewrite prefetch_rows_cons by (done || lia).
    destruct (write_slot_facts r (ins_cache w)) as (Hc1 & Hc2 & Hc3 & _).
    edestruct (IH (ws ++ [r])) as (w' & Hrun & Ht & Hl & Hp & Hc & Hcp & Hs);
      [..|exists w'; split; [exact Hrun|]].
    + unfold ins_cache at 1. simpl. rewrite Hc1, length_app, Hcur. simpl. lia.
    + unfold ins_cache. simpl. fold (ins_cache w). by rewrite Hc2, Hc3.
    + unfold ins_cache at 1. simpl. fold (ins_cache w).
      rewrite Hc2, length_app. simpl. lia.
    + unfold ins_cache. simpl. fold (ins_cache w).
      rewrite Hc2, length_app. simpl. intros j Hj1 Hj2.
      rewrite write_slot_later by lia. apply Hfalse; lia.
    + unfold ins_cache at 1. simpl.
      apply write_slot_slots; try done; try lia.
      apply Hfalse; lia.
    + done.
    + cbn [this ins_ctx prefetched level with_cache] in Ht, Hl, Hp.
      unfold ins_cache in Hc, Hcp, Hs.
      cbn [ins_ctx with_cache expr_values_cache] in Hc, Hcp, Hs.
      fold (ins_cache w) in Hc, Hcp, Hs. fold (ins_cache w') in Hc, Hcp, Hs.
      rewrite length_app in Hc. simpl in Hc. rewrite <- app_assoc in Hs.
      rewrite Ht, Hl, Hp, Hc, Hcp, Hc2.
      split_and!; try done; try (simpl; lia).
      rewrite <- app_assoc. f_equal.
      destruct (prefetch_enabled mode); [|done].
      rewrite (keyed_hashes_cons r rows), (keyed_hashes_cons r []).
      by destruct (key_hash r).
Qed.

Lemma insert_rows_cons row_indices r rows cur_row w i ht :
  row_indices !! cur_row = Some i ->
  null_bitmap_ (ins_cache w) !! cur_ (ins_cache w) = Some (negb (has_key r)) ->
  (forall h, key_hash r = Some h ->
     expr_values_hash_array_ (ins_cache w) !! cur_ (ins_cache w) = Some (wrap32 h)) ->
  hash_tbl_ (this w) = Some ht ->
  insert_rows row_indices (r :: rows) cur_row w =
    match key_hash r with
    | None =>
        insert_rows row_indices rows (S cur_row)
          (with_ins_cache w (NextRow (ins_cache w)))
    | Some h =>
        let '(inserted, ht') := HashTable_Insert ht (wrap32 h) i r in
        if inserted
        then insert_rows row_indices rows (S cur_row)
               (with_ins_cache (with_hash_tbl w ht') (NextRow (ins_cache w)))
        else Done (false, with_hash_tbl w ht')
    end.
Proof.
  intros Hi Hn Hh Hht. cbn [insert_rows]. rewrite Hi.
  unfold IsRowNull. rewrite Hn. unfold has_key in *.
  destruct (key_hash r) as [h|]; cbn [bind negb]; [|done].
  rewrite Hht. unfold CurExprValuesHash. rewrite (Hh h eq_refl). cbn [bind].
  destruct (HashTable_Insert ht (wrap32 h) i r) as [[] ht']; reflexivity.
Qed.

Lemma insert_rows_spec row_indices ps : forall done cur_row w ht,
  cur_ (ins_cache w) = length done ->
  slots_hold (ins_cache w) (done ++ ps.*1) ->
  hash_tbl_ (this w) = Some ht ->
  (forall j p, ps !! j = Some p -> row_indices !! (cur_row + j)%nat = Some p.2) ->
  exists w',
    insert_rows row_indices ps.*1 cur_row w = Done ((insert_seq ps ht).1, w') /\
    hash_tbl_ (this w') = Some (insert_seq ps ht).2 /\
    build_rows (this w') = build_rows (this w) /\
    level (ins_ctx w') = level (ins_ctx w) /\
    prefetched w' = prefetched w /\
    expr_values_hash_array_ (ins_cache w') = expr_values_hash_array_ (ins_cache w) /\
    null_bitmap_ (ins_cache w') = null_bitmap_ (ins_cache w) /\
    ((insert_seq ps ht).1 = true ->
     cur_ (ins_cache w') = (length done + length ps)%nat).
Proof.
  induction ps as [|p ps IH]; intros done cur_row w ht Hcur Hs Hht Hidx.
  - exists w. simpl. rewrite Nat.add_0_r. auto 10.
  - rewrite fmap_cons in *.
    destruct (Hs (length done) p.1) as [Hn Hh]; [apply list_lookup_middle; done|].
    rewrite <- Hcur in Hn, Hh.
    rewrite (insert_rows_cons _ _ _ _ _ p.2 ht); try done.
    2: { rewrite <- (Hidx 0%nat p eq_refl). f_equal. lia. }
    assert (forall j q, ps !! j = Some q ->
              row_indices !! (S cur_row + j)%nat = Some q.2) as Hidx'.
    { intros j q Hq. rewrite <- (Hidx (S j) q Hq). f_equal. lia. }
    cbn [insert_seq].
    destruct (key_hash p.1) as [h|].
    + destruct (HashTable_Insert ht (wrap32 h) p.2 p.1) as [[] ht'].
      * edestruct (IH (done ++ [p.1]) (S cur_row)
                      (with_ins_cache (with_hash_tbl w ht') (NextRow (ins_cache w))) ht')
          as (w' & Hrun & H1 & H2 & H3 & H4 & H5 & H6 & H7);
          [..|exists w'; split; [exact Hrun|]].
        -- simpl. rewrite length_app, Hcur. simpl. lia.
        -- rewrite <- app_assoc. by apply (slots_hold_arrays (ins_cache w)).
        -- done.
        -- done.
        -- rewrite H1, H2, H3, H4, H5, H6. split_and!; try done.
           intros Hb. rewrite (H7 Hb), length_app. simpl. lia.
      * exists (with_hash_tbl w ht'). simpl. split_and!; try done.
    + edestruct (IH (done ++ [p.1]) (S cur_row)
                    (with_ins_cache w (NextRow (ins_cache w))) ht)
        as (w' & Hrun & H1 & H2 & H3 & H4 & H5 & H6 & H7);
        [..|exists w'; split; [exact Hrun|]].
      * simpl. rewrite length_app, Hcur. simpl. lia.
      * rewrite <- app_assoc. by apply (slots_hold_arrays (ins_cache w)).
      * done.
      * done.
      * rewrite H1, H2, H3, H4, H5, H6. split_and!; try done.
        intros Hb. rewrite (H7 Hb), length_app. simpl. lia.
Qed.

(** ** The loop over the prefetch groups *)

Lemma insert_seq_app ps rest ht :
  insert_seq (ps ++ rest) ht =
    if (insert_seq ps ht).1
    then insert_seq rest (insert_seq ps ht).2
    else (false, (insert_seq ps ht).2).
Proof.
  revert ht. induction ps as [|p ps IH]; intros ht; simpl; [done|].
  destruct (key_hash p.1) as [h|]; [|apply IH].
  destruct (HashTable_Insert ht (wrap32 h) p.2 p.1) as [[] ht']; [apply IH | done].
Qed.

Lemma group_rows (batch : list TupleRow) (indices : list RowIdx) g C :
  (length batch <= length indices)%nat ->
  (take C (drop g (zip batch indices))).*1 = rows_limit batch g C.
Proof.
  intros Hlen. unfold rows_limit.
  by rewrite fmap_take, fmap_drop, fst_zip.
Qed.

Lemma group_indices (batch : list TupleRow) (indices : list RowIdx) g C j p :
  take C (drop g (zip batch indices)) !! j = Some p ->
  indices !! (g + j)%nat = Some p.2.
Proof.
  intros Hp. apply lookup_take_Some in Hp as [Hp _].
  rewrite lookup_drop in Hp. destruct p as [x y].
  by apply lookup_zip_Some in Hp as [_ Hy].
Qed.

Lemma keyed_hashes_app l1 l2 :
  keyed_hashes (l1 ++ l2) = keyed_hashes l1 ++ keyed_hashes l2.
Proof. apply omap_app. Qed.

Lemma slots_hold_nil c : slots_hold c [].
Proof. intros j r Hj. by rewrite lookup_nil in Hj. Qed.

Lemma insert_groups_spec mode (batch : list TupleRow) (indices : list RowIdx) C :
  (length batch <= length indices)%nat ->
  (1 <= C)%nat ->
  forall fuel g w ht,
    capacity (ins_cache w) = C ->
    (length batch <= g + fuel)%nat ->
    hash_tbl_ (this w) = Some ht ->
    exists w',
      insert_groups fuel mode batch indices C g w =
        Done ((insert_seq (drop g (zip batch indices)) ht).1, w') /\
      hash_tbl_ (this w') = Some (insert_seq (drop g (zip batch indices)) ht).2 /\
      build_rows (this w') = build_rows (this w) /\
      level (ins_ctx w') = level (ins_ctx w) /\
      capacity (ins_cache w') = C /\
      ((insert_seq (drop g (zip batch indices)) ht).1 = true ->
       prefetched w' =
         prefetched w ++
         (if prefetch_enabled mode then keyed_hashes (drop g batch) else []) /\
       ((g < length batch)%nat ->
        exists q,
          (g + q * C < length batch <= g + q * C + C)%nat /\
          cur_ (ins_cache w') = (length batch - (g + q * C))%nat /\
          slots_hold (ins_cache w') (drop (g + q * C) batch))).
Proof.
  intros Hlen HC.
  induction fuel as [|fuel IH]; intros g w ht Hcap Hfuel Hht.
  - (* no turn left: the loop is over *)
    exists w. cbn [insert_groups]. rewrite decide_False by lia.
    rewrite !drop_ge by (rewrite ?length_zip_with; lia). simpl.
    split_and!; try done. intros _. split; [|lia].
    destruct (prefetch_enabled mode); by rewrite app_nil_r.
  - cbn [insert_groups].
    destruct (decide (g < length batch)%nat) as [Hg|Hg].
    2: { exists w. rewrite !drop_ge by (rewrite ?length_zip_with; lia). simpl.
         split_and!; try done. intros _. split; [|lia].
         destruct (prefetch_enabled mode); by rewrite app_nil_r. }
    set (ps := take C (drop g (zip batch indices))).
    pose proof (group_rows batch indices g C Hlen) as Hrows. fold ps in Hrows.
    rewrite <- Hrows.
    (* the first pass *)
    destruct (prefetch_rows_spec mode ps.*1 []
                (with_ins_cache w (Reset (ins_cache w))))
      as (w2 & Hrun2 & Ht2 & Hl2 & Hp2 & Hc2 & Hcap2 & Hs2).
    { done. }
    { simpl. by rewrite length_replicate. }
    { simpl. fold (ins_cache w). unfold capacity at 1. simpl.
      fold (capacity (ins_cache w)). rewrite Hcap, Hrows. unfold rows_limit.
      rewrite length_take. lia. }
    { simpl. intros j _ Hj. apply lookup_replicate_2.
      unfold capacity in Hj. simpl in Hj. exact Hj. }
    { apply slots_hold_nil. }
    { simpl. rewrite Hht. eauto. }
    rewrite Hrun2. cbn [bind].
    simpl in Ht2, Hl2, Hp2, Hc2, Hs2.
    assert (capacity (ins_cache w2) = C) as Hcap2'.
    { rewrite Hcap2. unfold capacity. simpl. exact Hcap. }
    (* the second pass *)
    destruct (insert_rows_spec indices ps [] g
                (with_ins_cache w2 (ResetForRead (ins_cache w2))) ht)
      as (w4 & Hrun4 & Ht4 & Hb4 & Hl4 & Hp4 & Hh4 & Hn4 & Hc4).
    { done. }
    { simpl. by apply (slots_hold_arrays (ins_cache w2)). }
    { simpl. by rewrite Ht2. }
    { intros j p Hp. by apply (group_indices batch indices g C). }
    rewrite Hrun4. cbn [bind].
    simpl in Ht4, Hb4, Hl4, Hp4, Hh4, Hn4, Hc4.
    assert (capacity (ins_cache w4) = C) as Hcap4.
    { unfold capacity. rewrite Hh4. exact Hcap2'. }
    assert (drop g (zip batch indices) = ps ++ drop (g + C) (zip batch indices)) as Hsplit.
    { unfold ps. by rewrite <- drop_drop, take_drop. }
    assert (drop g batch = ps.*1 ++ drop (g + C) batch) as Hsplit'.
    { rewrite Hrows. unfold rows_limit. by rewrite <- drop_drop, take_drop. }
    rewrite Hsplit, insert_seq_app.
    destruct (insert_seq ps ht) as [[] ht4] eqn:Eseq; cbn [fst snd negb] in *.
    2: { (* an insertion failed *)
         exists w4. rewrite Ht2 in Hb4. rewrite Hl2 in Hl4. split_and!; done. }
    destruct (decide (g + C < length batch)%nat) as [Hmore|Hlast].
    + (* more groups follow *)
      destruct (IH (g + C)%nat w4 ht4) as (w' & Hrun & H1 & H2 & H3 & H4 & H5);
        [done | lia | done |].
      exists w'. rewrite Hrun, H1, H2, H3, H4, Hb4, Hl4, Ht2, Hl2.
      split_and!; try done.
      intros Hb. destruct (H5 Hb) as [Hp [q (Hq1 & Hq2 & Hq3)]]; [done|].
      split.
      * rewrite Hp, Hp4, Hp2, Hsplit', <- app_assoc. f_equal.
        destruct (prefetch_enabled mode); [|done].
        by rewrite keyed_hashes_app.
      * intros _. exists (S q).
        replace (g + S q * C)%nat with (g + C + q * C)%nat by lia.
        done.
    + (* this was the last group *)
      assert (drop (g + C) (zip batch indices) = []) as Hnil.
      { apply drop_ge. rewrite length_zip_with. lia. }
      assert (drop (g + C) batch = []) as Hnil' by (apply drop_ge; lia).
      exists w4. rewrite Hnil. cbn [insert_seq fst snd].
      split_and!; try done.
      * destruct fuel; cbn [insert_groups]; by rewrite ?decide_False by lia.
      * by rewrite Hb4, Ht2.
      * by rewrite Hl4, Hl2.
      * intros _. split.
        -- rewrite Hp4, Hp2, Hsplit', Hnil', !app_nil_r. done.
        -- intros _. exists 0%nat. rewrite Nat.add_0_r.
           assert (ps.*1 = drop g batch) as Hall.
           { rewrite Hsplit', Hnil', app_nil_r. done. }
           split; [lia|]. rewrite <- Hall. split.
           ++ rewrite (Hc4 eq_refl). simpl.
              rewrite <- (length_fmap fst ps), Hall, length_drop. done.
           ++ apply (slots_hold_arrays (ins_cache w2)); done.
Qed.

(** ** [InsertBatch] *)

Lemma keyed_entries_cons p ps :
  keyed_entries (p :: ps) =
    match key_hash p.1 with
    | Some h => (wrap32 h, p.2) :: keyed_entries ps
    | None => keyed_entries ps
    end.
Proof. unfold keyed_entries. simpl. by destruct (key_hash p.1). Qed.

Lemma insert_seq_entries ps : forall ht,
  (insert_seq ps ht).1 = true ->
  entries (insert_seq ps ht).2 ≡ₚ entries ht ++ keyed_entries ps.
Proof.
  induction ps as [|p ps IH]; intros ht.
  - simpl. by rewrite app_nil_r.
  - rewrite keyed_entries_cons. cbn [insert_seq].
    destruct (key_hash p.1) as [h|]; [|apply IH].
    destruct (HashTable_Insert ht (wrap32 h) p.2 p.1) as [[] ht'] eqn:Ei;
      [|discriminate].
    intros Hb. rewrite (IH ht' Hb), (Insert_true _ _ _ _ _ Ei).
    by rewrite <- app_assoc.
Qed.

(** With no slot in the cache the loop over the groups never advances. *)
Lemma insert_groups_no_progress mode (batch : list TupleRow) (indices : list RowIdx) :
  (0 < length batch)%nat ->
  forall fuel w, insert_groups fuel mode batch indices 0 0 w = Diverge.
Proof.
  intros Hpos. induction fuel as [|fuel IH]; intros w; cbn [insert_groups];
    rewrite decide_True by done; [done|].
  unfold rows_limit. rewrite take_0. cbn [prefetch_rows insert_rows bind negb].
  apply IH.
Qed.

(** [InsertBatch] does what inserting the rows one at a time does, whatever
    the size of the groups. *)
Lemma InsertBatch_insert_seq mode (batch : list TupleRow) (indices : list RowIdx) w ht :
  (1 <= capacity (ins_cache w))%nat ->
  (length batch <= length indices)%nat ->
  hash_tbl_ (this w) = Some ht ->
  exists w',
    InsertBatch mode batch indices w =
      Done ((insert_seq (zip batch indices) ht).1, w') /\
    hash_tbl_ (this w') = Some (insert_seq (zip batch indices) ht).2 /\
    ((insert_seq (zip batch indices) ht).1 = true ->
     prefetched w' =
       prefetched w ++ (if prefetch_enabled mode then keyed_hashes batch else []) /\
     ((0 < length batch)%nat ->
      exists q,
        (q * capacity (ins_cache w) < length batch
           <= q * capacity (ins_cache w) + capacity (ins_cache w))%nat /\
        cur_ (ins_cache w') = (length batch - q * capacity (ins_cache w))%nat /\
        slots_hold (ins_cache w') (drop (q * capacity (ins_cache w)) batch))).
Proof.
  intros HC Hlen Hht. unfold InsertBatch.
  destruct (insert_groups_spec mode batch indices (capacity (ins_cache w))
              Hlen HC (length batch) 0%nat w ht)
    as (w' & Hrun & Ht & _ & _ & _ & Hok); [done | lia | done |].
  rewrite drop_0 in *. exists w'. split_and!; try done.
Qed.

(** C2. When [InsertBatch] returns true for a batch and the vector of the
    row indices of its rows, the hash table holds, besides what it held
    before, exactly the (hash, row index) entries of the rows of the batch
    whose join keys are not NULL, the row at position i with [indices[i]];
    starting from an empty hash table these are all its entries.  The
    number of rows need not be a multiple of the capacity of the cache.  A
    row with a NULL key is neither prefetched nor inserted, and yet it has
    its slot in the cache: after the last group the cursor has passed one
    slot for each of its rows and the slot of a row with a NULL key has its
    null flag set. *)
Theorem InsertBatch_inserts_keyed_rows mode (batch : list TupleRow)
    (indices : list RowIdx) w ht w' :
  length indices = length batch ->
  hash_tbl_ (this w) = Some ht ->
  InsertBatch mode batch indices w = Done (true, w') ->
  exists ht',
    hash_tbl_ (this w') = Some ht' /\
    entries ht' ≡ₚ entries ht ++ keyed_entries (zip batch indices) /\
    (entries ht = [] -> entries ht' ≡ₚ keyed_entries (zip batch indices)) /\
    prefetched w' =
      prefetched w ++ (if prefetch_enabled mode then keyed_hashes batch else []) /\
    ((0 < length batch)%nat ->
     exists q,
       (q * capacity (ins_cache w) < length batch
          <= q * capacity (ins_cache w) + capacity (ins_cache w))%nat /\
       cur_ (ins_cache w') = (length batch - q * capacity (ins_cache w))%nat /\
       slots_hold (ins_cache w') (drop (q * capacity (ins_cache w)) batch)).
Proof.
  intros Hlen Hht Hrun.
  destruct (decide (1 <= capacity (ins_cache w))%nat) as [HC|HC].
  - destruct (InsertBatch_insert_seq mode batch indices w ht)
      as (w'' & Hrun' & Ht & Hok); [done | lia | done |].
    rewrite Hrun in Hrun'. injection Hrun' as Hb <-.
    symmetry in Hb. destruct (Hok Hb) as [Hp Hlast].
    pose proof (insert_seq_entries _ _ Hb) as He.
    eexists. split; [exact Ht|]. split_and!; try done.
    intros Hempty. by rewrite He, Hempty.
  - assert (capacity (ins_cache w) = 0%nat) as HC0 by lia.
    destruct batch as [|r batch].
    + unfold InsertBatch in Hrun. simpl in Hrun. injection Hrun as <-.
      exists ht. simpl. rewrite !app_nil_r.
      split_and!; try done.
      * by intros ->.
      * destruct (prefetch_enabled mode); by rewrite app_nil_r.
      * lia.
    + unfold InsertBatch in Hrun. rewrite HC0 in Hrun.
      rewrite insert_groups_no_progress in Hrun by (simpl; lia). discriminate.
Qed.


End Properties.

(** * Further properties of [ProcessBuildBatch] *)

Section FurtherBuild.

Context {RT : Runtime} {SP : SlowPath} {L : RuntimeLaws RT} (SL : SlowPathLaws).

(** ** The hashes of a partition *)

(** X2. The partition index [hash >> (32 - B)] cuts the 32-bit hashes into
    2^B consecutive ranges of equal length: a hash goes to partition p
    exactly when it lies between p * 2^(32-B) and (p+1) * 2^(32-B), and
    every partition below 2^B has hashes of its own. *)
Theorem partition_of_hash_range h p :
  0 < NUM_PARTITIONING_BITS <= 32 ->
  (partition_of h = p <->
   Z.of_nat p * 2 ^ (32 - NUM_PARTITIONING_BITS) <= wrap32 h
     < (Z.of_nat p + 1) * 2 ^ (32 - NUM_PARTITIONING_BITS)) /\
  ((p < Z.to_nat (2 ^ NUM_PARTITIONING_BITS))%nat ->
   partition_of (Z.of_nat p * 2 ^ (32 - NUM_PARTITIONING_BITS)) = p).
Proof.
  intros HB.
  assert (0 < 2 ^ (32 - NUM_PARTITIONING_BITS)) as Hd
    by (apply Z.pow_pos_nonneg; lia).
  assert (forall x q, 0 <= x ->
            (Z.to_nat (Z.shiftr x (32 - NUM_PARTITIONING_BITS)) = q <->
             Z.of_nat q * 2 ^ (32 - NUM_PARTITIONING_BITS) <= x
               < (Z.of_nat q + 1) * 2 ^ (32 - NUM_PARTITIONING_BITS))) as Hiff.
  { intros x q Hx. rewrite Z.shiftr_div_pow2 by lia.
    set (d := 2 ^ (32 - NUM_PARTITIONING_BITS)) in *.
    pose proof (Z.div_pos x d Hx Hd) as Hq.
    pose proof (Z.mul_div_le x d Hd) as Hlo.
    pose proof (Z.mul_succ_div_gt x d Hd) as Hhi.
    split.
    - intros <-. rewrite Z2Nat.id by done. lia.
    - intros [H1 H2].
      assert (x / d = Z.of_nat q) as ->; [|apply Nat2Z.id].
      symmetry. apply (Z.div_unique x d (Z.of_nat q) (x - Z.of_nat q * d)); lia. }
  split.
  - unfold partition_of. apply Hiff. apply wrap32_range.
  - intros Hp. unfold partition_of.
    set (d := 2 ^ (32 - NUM_PARTITIONING_BITS)) in *.
    assert (2 ^ NUM_PARTITIONING_BITS * d = 2 ^ 32) as Hfull.
    { unfold d. rewrite <- Z.pow_add_r by lia. f_equal. lia. }
    assert (0 < 2 ^ NUM_PARTITIONING_BITS) by (apply Z.pow_pos_nonneg; lia).
    assert (0 <= Z.of_nat p * d < 2 ^ 32) as Hrange by nia.
    unfold wrap32. rewrite Z.mod_small by done.
    apply Hiff; lia.
Qed.

(** ** The cache under [ProcessBuildBatch] *)

Lemma EvalAndHashBuild_inv row ctx b ctx1 :
  EvalAndHashBuild row ctx = Done (b, ctx1) ->
  (cur_ (expr_values_cache ctx) < capacity (expr_values_cache ctx))%nat /\
  b = has_key row /\
  level ctx1 = level ctx /\
  cur_ (expr_values_cache ctx1) = cur_ (expr_values_cache ctx) /\
  cur_end_ (expr_values_cache ctx1) = cur_end_ (expr_values_cache ctx) /\
  null_bitmap_ (expr_values_cache ctx1) = null_bitmap_ (expr_values_cache ctx) /\
  length (expr_values_hash_array_ (expr_values_cache ctx1)) =
    length (expr_values_hash_array_ (expr_values_cache ctx)) /\
  (forall j, j <> cur_ (expr_values_cache ctx) ->
     expr_values_hash_array_ (expr_values_cache ctx1) !! j =
       expr_values_hash_array_ (expr_values_cache ctx) !! j).
Proof.
  intros He.
  assert (cur_ (expr_values_cache ctx) < capacity (expr_values_cache ctx))%nat
    as Hlt.
  { unfold EvalAndHashBuild in He. by case_decide. }
  rewrite EvalAndHashBuild_run in He by done. unfold has_key.
  destruct (key_hash row) as [h|]; injection He as <- <-; simpl;
    rewrite ?length_insert; split_and!; try done.
  intros j Hj. by rewrite list_lookup_insert_ne.
Qed.

Lemma AppendRow_calls ref r w st w' :
  AppendRow ref r w = Done (st, w') ->
  ht_ctx w' = ht_ctx w /\
  (slow_path_calls w' = slow_path_calls w \/
   slow_path_calls w' = slow_path_calls w ++ [(ref, r)]).
Proof.
  unfold AppendRow.
  destruct (stream_at (builder w) ref) as [s|]; [|discriminate].
  destruct (AddRow s r) as [[[] status] s']; [intros [= <- <-]; auto|].
  destruct status; simpl; [|intros [= <- <-]; auto].
  destruct (AppendRowStreamFull _ ref r) as [st' b'].
  intros [= <- <-]. auto.
Qed.

(** What a row leaves of the context and of the record of slow-path calls,
    whatever its status. *)
Lemma process_build_row_context bf r w st w' :
  process_build_row bf r w = Done (st, w') ->
  (exists ctx1 b,
     EvalAndHashBuild r (ht_ctx w) = Done (b, ctx1) /\ ht_ctx w' = ctx1) /\
  (slow_path_calls w' = slow_path_calls w \/
   slow_path_calls w' = slow_path_calls w ++ [(destination r, r)]).
Proof.
  unfold process_build_row.
  destruct (EvalAndHashBuild r (ht_ctx w)) as [[[] ctx1]| |] eqn:Ee;
    simpl; try discriminate.
  - pose proof Ee as Ek.
    apply EvalAndHashBuild_key in Ek as (h & Hk & Hh & _).
    rewrite (destination_key _ _ Hk).
    destruct bf; simpl.
    + case_decide; simpl; [|discriminate].
      rewrite Hh. simpl. fold (partition_of h).
      destruct (hash_partitions_ (builder w) !! _); [|discriminate].
      intros Ha. apply AppendRow_calls in Ha as [-> Hc]. simpl in *.
      split; [by eexists _, _ | exact Hc].
    + rewrite Hh. simpl. fold (partition_of h).
      destruct (hash_partitions_ (builder w) !! _); [|discriminate].
      intros Ha. apply AppendRow_calls in Ha as [-> Hc]. simpl in *.
      split; [by eexists _, _ | exact Hc].
  - pose proof Ee as Ek. apply EvalAndHashBuild_null in Ek as [Hk _].
    rewrite (destination_null _ Hk).
    destruct (null_aware_partition_ (builder w)).
    + intros Ha. apply AppendRow_calls in Ha as [-> Hc]. simpl in *.
      split; [by eexists _, _ | exact Hc].
    + intros [= <- <-]. simpl. split; [by eexists _, _ | by left].
Qed.

(** The cache as [ProcessBuildBatch] keeps it: the cursor on a slot, the
    null flags all clear. *)
Lemma process_build_rows_context bf rows : forall w st w',
  process_build_rows bf rows w = Done (st, w') ->
  level (ht_ctx w') = level (ht_ctx w) /\
  cur_ (expr_values_cache (ht_ctx w')) = cur_ (expr_values_cache (ht_ctx w)) /\
  cur_end_ (expr_values_cache (ht_ctx w')) =
    cur_end_ (expr_values_cache (ht_ctx w)) /\
  null_bitmap_ (expr_values_cache (ht_ctx w')) =
    null_bitmap_ (expr_values_cache (ht_ctx w)) /\
  length (expr_values_hash_array_ (expr_values_cache (ht_ctx w'))) =
    length (expr_values_hash_array_ (expr_values_cache (ht_ctx w))) /\
  (forall j, j <> cur_ (expr_values_cache (ht_ctx w)) ->
     expr_values_hash_array_ (expr_values_cache (ht_ctx w')) !! j =
       expr_values_hash_array_ (expr_values_cache (ht_ctx w)) !! j) /\
  exists calls,
    slow_path_calls w' = slow_path_calls w ++ calls /\
    sublist calls ((fun r => (destination r, r)) <$> rows).
Proof.
  induction rows as [|r rows IH]; intros w st w' Hrun; simpl in Hrun.
  - injection Hrun as <- <-. split_and!; try done.
    exists []. by rewrite app_nil_r.
  - destruct (process_build_row bf r w) as [[st1 w1]| |] eqn:Er;
      simpl in Hrun; try discriminate.
    destruct (process_build_row_context _ _ _ _ _ Er)
      as [(ctx1 & b & He & Hctx) Hcalls].
    apply EvalAndHashBuild_inv in He
      as (_ & _ & Hl & Hc & Hce & Hn & Hlen & Hslot).
    rewrite <- Hctx in Hl, Hc, Hce, Hn, Hlen, Hslot.
    assert (exists calls1,
              slow_path_calls w1 = slow_path_calls w ++ calls1 /\
              sublist calls1 [(destination r, r)]) as (calls1 & Hc1 & Hs1).
    { destruct Hcalls as [->| ->].
      - exists []. rewrite app_nil_r. split; [done|]. apply sublist_nil_l.
      - by exists [(destination r, r)]. }
    destruct (ok st1).
    + apply IH in Hrun as (-> & -> & -> & -> & -> & Hslot' & calls & -> & Hs).
      split_and!; try done.
      * intros j Hj. rewrite Hslot' by congruence. by apply Hslot.
      * exists (calls1 ++ calls). rewrite Hc1, <- app_assoc. split; [done|].
        rewrite fmap_cons. by apply (sublist_app _ [_]).
    + injection Hrun as <- <-. split_and!; try done.
      exists calls1. split; [done|].
      rewrite fmap_cons. by apply (sublist_inserts_r _ _ [_]).
Qed.

(** The body of the loop returns what its [AppendRow] call returns, error
    or not: the status of the call is the status of the row, and the state
    the call leaves is the state the row leaves. *)
Lemma process_build_row_of_append bf r w st w' :
  (cur_ (expr_values_cache (ht_ctx w)) < capacity (expr_values_cache (ht_ctx w)))%nat ->
  (bf = true -> level (ht_ctx w) = 0%nat) ->
  AppendRow (destination r) r (state_at_append bf r w) = Done (st, w') ->
  process_build_row bf r w = Done (st, w').
Proof.
  intros Hlt Hl Ha. unfold process_build_row.
  rewrite EvalAndHashBuild_run by done.
  unfold state_at_append, destination in Ha.
  destruct (key_hash r) as [h|] eqn:Hk; cbn [bind negb].
  - assert (exists p, hash_partitions_ (builder w) !! partition_of h = Some p)
      as [p Hp].
    { unfold AppendRow in Ha.
      destruct (stream_at _ _) as [s|] eqn:Es; [|discriminate].
      destruct bf; simpl in Es;
        destruct (hash_partitions_ (builder w) !! partition_of h);
        try discriminate; eauto. }
    destruct bf; cbn [bind].
    + rewrite decide_True by (by apply Hl). cbn [bind].
      unfold CurExprValuesHash. simpl.
      rewrite list_lookup_insert_eq by done. cbn [bind].
      fold (partition_of h). rewrite Hp. exact Ha.
    + unfold CurExprValuesHash. simpl.
      rewrite list_lookup_insert_eq by done. cbn [bind].
      fold (partition_of h). rewrite Hp. exact Ha.
  - assert (with_ctx w (ht_ctx w) = w) as -> by (by destruct w).
    destruct (null_aware_partition_ (builder w)) eqn:En; [exact Ha|].
    unfold AppendRow in Ha. simpl in Ha. rewrite En in Ha. discriminate.
Qed.

(** C7. When the [AppendRow] call made for a row of the batch returns an
    error, [ProcessBuildBatch] returns that error.  The rows before it were
    processed with success and left the state [wk]; the call for the row is
    made on the stream the row is routed to, in the state the loop has
    reached for it, and returns the error [code] leaving the state [wf].
    Then the body of the loop returns that error for the row, and
    [ProcessBuildBatch] returns it as well, in the state that call left,
    whatever rows follow in the batch: none of them is looked at, appended
    to a stream or hashed into a bloom filter.  The cache has a slot and
    filters are built at level 0 only. *)
Theorem ProcessBuildBatch_stops_at_error pre r bf w wk code wf :
  (1 <= capacity (expr_values_cache (ht_ctx w)))%nat ->
  (bf = true -> level (ht_ctx w) = 0%nat) ->
  ProcessBuildBatch pre bf w = Done (OK, wk) ->
  AppendRow (destination r) r (state_at_append bf r wk) = Done (Error code, wf) ->
  process_build_row bf r wk = Done (Error code, wf) /\
  forall post,
    ProcessBuildBatch (pre ++ r :: post) bf w = Done (Error code, wf).
Proof.
  unfold ProcessBuildBatch. intros Hcap Hlevel Hpre Ha.
  assert (process_build_row bf r wk = Done (Error code, wf)) as Hrow.
  { pose proof (process_build_rows_context _ _ _ _ _ Hpre)
      as (Hl & Hc & _ & _ & Hlen & _).
    simpl in Hl, Hc, Hlen.
    apply process_build_row_of_append; [| |exact Ha].
    - unfold capacity in *. rewrite Hc, Hlen. lia.
    - intros Hbf. rewrite Hl. by apply Hlevel. }
  split; [exact Hrow|].
  intros post. rewrite process_build_rows_app, Hpre. simpl.
  by rewrite Hrow.
Qed.

(** X6. [ProcessBuildBatch] works in the first slot of the evaluator cache
    only: whatever status it returns, the cursor of the cache is at slot 0,
    all null flags are clear, and the hashes cached in the other slots are
    those that were there before. *)
Theorem ProcessBuildBatch_uses_first_slot batch bf w st w' :
  ProcessBuildBatch batch bf w = Done (st, w') ->
  cur_ (expr_values_cache (ht_ctx w')) = 0%nat /\
  null_bitmap_ (expr_values_cache (ht_ctx w')) =
    replicate (capacity (expr_values_cache (ht_ctx w))) false /\
  capacity (expr_values_cache (ht_ctx w')) =
    capacity (expr_values_cache (ht_ctx w)) /\
  forall j, j <> 0%nat ->
    expr_values_hash_array_ (expr_values_cache (ht_ctx w')) !! j =
      expr_values_hash_array_ (expr_values_cache (ht_ctx w)) !! j.
Proof.
  unfold ProcessBuildBatch. intros Hrun.
  apply process_build_rows_context in Hrun as (_ & Hc & _ & Hn & Hlen & Hslot & _).
  simpl in *. unfold capacity. auto.
Qed.

(** X3. Batch boundaries do not matter to [ProcessBuildBatch]: processing
    the concatenation of two batches is processing the first and, when that
    returns [OK], the second; when the first returns an error, that error
    and the state it left are the result. *)
Theorem ProcessBuildBatch_app batch1 batch2 bf w :
  ProcessBuildBatch (batch1 ++ batch2) bf w =
    let* (status, w1) := ProcessBuildBatch batch1 bf w in
    if ok status then ProcessBuildBatch batch2 bf w1 else Done (status, w1).
Proof.
  unfold ProcessBuildBatch at 1 2. rewrite process_build_rows_app.
  destruct (process_build_rows bf batch1 _) as [[st w1]| |] eqn:E1; simpl; try done.
  destruct (ok st); [|done].
  apply process_build_rows_context in E1 as (_ & Hc & _ & Hn & Hlen & _).
  simpl in Hc, Hn, Hlen.
  unfold ProcessBuildBatch. f_equal.
  destruct w1 as [b [lvl [cur cend ha nb]] calls]. simpl in *.
  unfold with_ctx, with_cache, Reset, capacity. simpl.
  by rewrite Hc, Hn, Hlen.
Qed.

(** X4. [ProcessBuildBatch] goes through the slow append path at most once
    for each row, with the row and the stream the row is routed to, in the
    order of the batch: the calls it adds to the record are a subsequence
    of the rows of the batch paired with their destinations. *)
Theorem ProcessBuildBatch_slow_path_calls batch bf w st w' :
  ProcessBuildBatch batch bf w = Done (st, w') ->
  exists calls,
    slow_path_calls w' = slow_path_calls w ++ calls /\
    sublist calls ((fun r => (destination r, r)) <$> batch) /\
    (length calls <= length batch)%nat.
Proof.
  unfold ProcessBuildBatch. intros Hrun.
  apply process_build_rows_context in Hrun as (_ & _ & _ & _ & _ & _ & calls & Hc & Hs).
  exists calls. split_and!; try done.
  apply sublist_length in Hs. by rewrite length_fmap in Hs.
Qed.

(** ** Never out of bounds *)

Lemma process_build_rows_ready bf rows : forall w,
  0 < NUM_PARTITIONING_BITS <= 32 ->
  build_ready bf w ->
  exists st w', process_build_rows bf rows w = Done (st, w') /\ build_ready bf w'.
Proof.
  induction rows as [|r rows IH]; intros w HB Hready; simpl.
  - by eexists _, _.
  - destruct (process_build_row_returns SL bf r w HB Hready)
      as (st & w1 & -> & Hready1). simpl.
    destruct (ok st); [by apply IH | by eexists _, _].
Qed.

(** X1. With 2^B hash partitions, a cache of at least one slot and filters
    built at level 0 only, [ProcessBuildBatch] returns a status for every
    batch: the partition index of every hash is within [hash_partitions_]
    and no cache slot past the capacity is touched.  The state it leaves
    meets the same conditions, so the next batch can follow. *)
Theorem ProcessBuildBatch_stays_in_bounds batch bf w :
  0 < NUM_PARTITIONING_BITS <= 32 ->
  (1 <= capacity (expr_values_cache (ht_ctx w)))%nat ->
  length (hash_partitions_ (builder w)) = Z.to_nat (2 ^ NUM_PARTITIONING_BITS) ->
  (bf = true -> level (ht_ctx w) = 0%nat) ->
  exists st w',
    ProcessBuildBatch batch bf w = Done (st, w') /\
    (1 <= capacity (expr_values_cache (ht_ctx w')))%nat /\
    length (hash_partitions_ (builder w')) = Z.to_nat (2 ^ NUM_PARTITIONING_BITS) /\
    (bf = true -> level (ht_ctx w') = 0%nat).
Proof.
  intros HB HC Hn Hl. unfold ProcessBuildBatch.
  assert (build_ready bf
            (with_ctx w (with_cache (ht_ctx w)
                           (Reset (expr_values_cache (ht_ctx w)))))) as Hready.
  { unfold build_ready. simpl. split_and!; done. }
  destruct (process_build_rows_ready bf batch _ HB Hready)
    as (st & w' & Hrun & Hc' & Hn' & Hl').
  exists st, w'. split; [exact Hrun|]. split_and!; try done. lia.
Qed.

(** ** The filters when a batch stops at an error *)

(** X5. A row is hashed into the bloom filters before it is appended: when
    [ProcessBuildBatch] stops at a row whose append fails, the filters have
    received the hashes of the rows before it and of that row itself, when
    they have a key, and a bloom filter answers true for the hash of the
    row that could not be appended. *)
Theorem ProcessBuildBatch_filters_at_error pre r bf w wk code wf :
  ProcessBuildBatch pre bf w = Done (OK, wk) ->
  process_build_row bf r wk = Done (Error code, wf) ->
  (forall post,
     ProcessBuildBatch (pre ++ r :: post) bf w = Done (Error code, wf)) /\
  filters_ (builder wf) = filters_after bf (pre ++ [r]) (filters_ (builder w)) /\
  (bf = true -> has_key r = true ->
   forall i fc bf0,
     filters_ (builder w) !! i = Some fc ->
     local_bloom_filter fc = Some bf0 ->
     exists bf1,
       filters_ (builder wf) !! i =
         Some {| expr := expr fc; local_bloom_filter := Some bf1 |} /\
       Find bf1 (filter_hash_of (expr fc) r) = true).
Proof.
  intros Hpre Hrow.
  assert (filters_ (builder wf) =
          filters_after bf (pre ++ [r]) (filters_ (builder w))) as Hf.
  { destruct (process_build_row_frame SL _ _ _ _ _ Hrow) as (-> & _).
    rewrite (ProcessBuildBatch_filters SL _ _ _ _ Hpre).
    unfold filters_after. by rewrite fold_left_app. }
  split; [|split; [exact Hf|]].
  - intros post. unfold ProcessBuildBatch in *.
    rewrite process_build_rows_app, Hpre. simpl. by rewrite Hrow.
  - intros -> Hk i fc bf0 Hi Hb. rewrite Hf.
    rewrite (filters_after_lookup _ _ _ _ Hi), Hb. simpl.
    eexists. split; [reflexivity|].
    apply Find_fold_In. apply in_map. apply List.filter_In.
    split; [|exact Hk]. apply in_or_app. right. by left.
Qed.

(** ** The streams when a stream reports a hard error *)

(** X16. When [ProcessBuildBatch] stops at a row because [AddRow] itself
    reported a hard error (no call to the slow path was made for that row),
    the row is in no stream: every stream holds what it held before the
    batch and, in order, the rows before the failing one that were routed
    to it. *)
Theorem ProcessBuildBatch_no_append_on_stream_error pre r bf w wk code wf :
  ProcessBuildBatch pre bf w = Done (OK, wk) ->
  process_build_row bf r wk = Done (Error code, wf) ->
  slow_path_calls wf = slow_path_calls wk ->
  (forall post,
     ProcessBuildBatch (pre ++ r :: post) bf w = Done (Error code, wf)) /\
  forall ref,
    rows_at (builder wf) ref =
      (fun l => l ++ gain ref pre) <$> rows_at (builder w) ref.
Proof.
  intros Hpre Hrow Hcalls. split.
  { intros post. unfold ProcessBuildBatch in *.
    rewrite process_build_rows_app, Hpre. simpl. by rewrite Hrow. }
  intros ref.
  destruct (process_build_row_error _ _ _ _ _ Hrow) as (w1 & Ha & Hc1 & Hb1).
  assert (rows_at (builder wf) ref = rows_at (builder w1) ref) as ->.
  { unfold AppendRow in Ha.
    destruct (stream_at (builder w1) (destination r)) as [s|] eqn:Es;
      [|discriminate].
    destruct (AddRow s r) as [[[] status] s'] eqn:Eadd; [discriminate|].
    destruct status as [|code']; simpl in Ha.
    - destruct (AppendRowStreamFull _ (destination r) r) as [st b'].
      injection Ha as _ <-. simpl in Hcalls.
      rewrite Hc1 in Hcalls. apply (f_equal length) in Hcalls.
      rewrite length_app in Hcalls. simpl in Hcalls. lia.
    - injection Ha as _ <-. simpl.
      destruct (decide (ref = destination r)) as [->|Hne].
      + rewrite (rows_at_set_stream_same _ _ s) by done.
        rewrite (rows_at_stream_at _ _ s) by done.
        by rewrite (AddRow_false _ _ _ _ Eadd).
      + by apply rows_at_set_stream_other. }
  assert (rows_at (builder w1) ref = rows_at (builder wk) ref) as ->.
  { rewrite Hb1. destruct (bf && has_key r); [|done].
    apply rows_at_insert_filters. }
  apply (ProcessBuildBatch_rows SL _ _ _ _ Hpre).
Qed.

End FurtherBuild.

(** * Further properties of [InsertBatch] *)

Section FurtherInsert.

Context {RT : Runtime} {L : RuntimeLaws RT}.

(** ** What [InsertBatch] leaves alone *)

Lemma prefetch_rows_frame mode rows : forall w w',
  prefetch_rows mode rows w = Done w' ->
  this w' = this w /\
  level (ins_ctx w') = level (ins_ctx w) /\
  capacity (ins_cache w') = capacity (ins_cache w) /\
  (mode = NONE -> prefetched w' = prefetched w).
Proof.
  induction rows as [|r rows IH]; intros w w' Hrun; cbn [prefetch_rows] in Hrun.
  - by injection Hrun as <-.
  - destruct (EvalAndHashBuild r (ins_ctx w)) as [[b ctx1]| |] eqn:Ee;
      cbn [bind] in Hrun; try discriminate.
    apply EvalAndHashBuild_inv in Ee as (_ & _ & Hl & _ & _ & _ & Hlen & _).
    destruct b.
    + destruct (prefetch_enabled mode) eqn:Em; cbn [this] in Hrun.
      * destruct (hash_tbl_ (this w)); [|discriminate].
        destruct (CurExprValuesHash _); cbn [bind] in Hrun; try discriminate.
        apply IH in Hrun as (-> & -> & -> & Hp). simpl.
        unfold capacity. simpl. split_and!; try done.
        intros ->. discriminate.
      * cbn [bind] in Hrun. apply IH in Hrun as (-> & -> & -> & Hp). simpl.
        unfold capacity. simpl. auto.
    + destruct (SetRowNull _) as [c| |] eqn:Es; cbn [bind] in Hrun; try discriminate.
      apply IH in Hrun as (-> & -> & -> & Hp). simpl.
      unfold SetRowNull in Es. case_decide; [|discriminate].
      injection Es as <-. unfold capacity. simpl. auto.
Qed.

Lemma insert_rows_frame row_indices rows : forall cur_row w b w',
  insert_rows row_indices rows cur_row w = Done (b, w') ->
  build_rows (this w') = build_rows (this w) /\
  level (ins_ctx w') = level (ins_ctx w) /\
  capacity (ins_cache w') = capacity (ins_cache w) /\
  prefetched w' = prefetched w.
Proof.
  induction rows as [|r rows IH]; intros cur_row w b w' Hrun;
    cbn [insert_rows] in Hrun.
  - by injection Hrun as <- <-.
  - destruct (row_indices !! cur_row); [|discriminate].
    destruct (IsRowNull (ins_cache w)) as [[]| |]; cbn [bind negb] in Hrun;
      try discriminate.
    + by apply IH in Hrun as (-> & -> & -> & ->).
    + destruct (hash_tbl_ (this w)) as [ht|]; [|discriminate].
      destruct (CurExprValuesHash _) as [h| |]; cbn [bind] in Hrun; try discriminate.
      destruct (HashTable_Insert ht h _ r) as [[] ht']; cbn [bind negb] in Hrun.
      * by apply IH in Hrun as (-> & -> & -> & ->).
      * by injection Hrun as <- <-.
Qed.

Lemma insert_groups_frame mode (batch : list TupleRow) (indices : list RowIdx) C :
  forall fuel g w b w',
    insert_groups fuel mode batch indices C g w = Done (b, w') ->
    build_rows (this w') = build_rows (this w) /\
    level (ins_ctx w') = level (ins_ctx w) /\
    capacity (ins_cache w') = capacity (ins_cache w) /\
    (mode = NONE -> prefetched w' = prefetched w).
Proof.
  induction fuel as [|fuel IH]; intros g w b w' Hrun; cbn [insert_groups] in Hrun;
    case_decide; try discriminate; try by injection Hrun as <- <-.
  destruct (prefetch_rows mode _ _) as [w2| |] eqn:E2; cbn [bind] in Hrun;
    try discriminate.
  apply prefetch_rows_frame in E2 as (Ht2 & Hl2 & Hc2 & Hp2).
  destruct (insert_rows indices _ g _) as [[fin w4]| |] eqn:E4; cbn [bind] in Hrun;
    try discriminate.
  apply insert_rows_frame in E4 as (Hb4 & Hl4 & Hc4 & Hp4).
  simpl in *. unfold capacity in *. simpl in *.
  destruct fin; cbn [negb] in Hrun.
  - apply IH in Hrun as (-> & -> & Hc & Hp).
    unfold capacity in Hc. rewrite Hc, Hb4, Ht2, Hl4, Hl2, Hc4, Hc2.
    split_and!; try done.
    intros Hm. by rewrite (Hp Hm), Hp4, (Hp2 Hm).
  - injection Hrun as <- <-. rewrite Hb4, Ht2, Hl4, Hl2, Hc4, Hc2.
    split_and!; try done.
    intros Hm. by rewrite Hp4, (Hp2 Hm).
Qed.

(** X12. Whatever it returns, [InsertBatch] leaves the stream of the
    partition, the level of the context and the capacity of the cache as
    they were: of the partition it writes the hash table only. *)
Theorem InsertBatch_frame mode (batch : list TupleRow) (indices : list RowIdx)
    w b w' :
  InsertBatch mode batch indices w = Done (b, w') ->
  build_rows (this w') = build_rows (this w) /\
  level (ins_ctx w') = level (ins_ctx w) /\
  capacity (ins_cache w') = capacity (ins_cache w).
Proof.
  unfold InsertBatch. intros Hrun.
  apply insert_groups_frame in Hrun as (? & ? & ? & _). auto.
Qed.

(** X13. With [prefetch_mode] [NONE], [InsertBatch] never calls
    [PrefetchBucket], whether it returns true or false. *)
Theorem InsertBatch_none_never_prefetches (batch : list TupleRow)
    (indices : list RowIdx) w b w' :
  InsertBatch NONE batch indices w = Done (b, w') ->
  prefetched w' = prefetched w.
Proof.
  unfold InsertBatch. intros Hrun.
  apply insert_groups_frame in Hrun as (_ & _ & _ & Hp). by apply Hp.
Qed.

(** ** The result does not depend on how the rows are grouped *)

(** X8. The prefetch mode is a hint only: for any two modes [InsertBatch]
    returns the same boolean and leaves the same hash table. *)
Theorem InsertBatch_prefetch_mode_irrelevant mode1 mode2
    (batch : list TupleRow) (indices : list RowIdx) w ht :
  (1 <= capacity (ins_cache w))%nat ->
  (length batch <= length indices)%nat ->
  hash_tbl_ (this w) = Some ht ->
  exists b ht' w1 w2,
    InsertBatch mode1 batch indices w = Done (b, w1) /\
    InsertBatch mode2 batch indices w = Done (b, w2) /\
    hash_tbl_ (this w1) = Some ht' /\
    hash_tbl_ (this w2) = Some ht'.
Proof.
  intros HC Hlen Hht.
  destruct (InsertBatch_insert_seq mode1 batch indices w ht HC Hlen Hht)
    as (w1 & Hrun1 & Ht1 & _).
  destruct (InsertBatch_insert_seq mode2 batch indices w ht HC Hlen Hht)
    as (w2 & Hrun2 & Ht2 & _).
  by eexists _, _, w1, w2.
Qed.

Lemma insert_seq_keyed ps : forall ht,
  insert_seq (List.filter (fun p => has_key p.1) ps) ht = insert_seq ps ht.
Proof.
  induction ps as [|p ps IH]; intros ht; [done|].
  cbn [List.filter insert_seq]. unfold has_key at 1.
  destruct (key_hash p.1) as [h|] eqn:Hk; [|apply IH].
  cbn [insert_seq]. rewrite Hk.
  destruct (HashTable_Insert ht (wrap32 h) p.2 p.1) as [[] ht']; [apply IH | done].
Qed.

(** X9. Rows with a NULL key are transparent to [InsertBatch]: it returns
    the same boolean and leaves the same hash table as on the batch without
    these rows and without their row indices. *)
Theorem InsertBatch_ignores_null_keys mode (batch : list TupleRow)
    (indices : list RowIdx) w ht :
  (1 <= capacity (ins_cache w))%nat ->
  (length batch <= length indices)%nat ->
  hash_tbl_ (this w) = Some ht ->
  exists b ht' w1 w2,
    InsertBatch mode batch indices w = Done (b, w1) /\
    InsertBatch mode
      (List.filter (fun p => has_key p.1) (zip batch indices)).*1
      (List.filter (fun p => has_key p.1) (zip batch indices)).*2 w = Done (b, w2) /\
    hash_tbl_ (this w1) = Some ht' /\
    hash_tbl_ (this w2) = Some ht'.
Proof.
  intros HC Hlen Hht.
  destruct (InsertBatch_insert_seq mode batch indices w ht HC Hlen Hht)
    as (w1 & Hrun1 & Ht1 & _).
  destruct (InsertBatch_insert_seq mode
              (List.filter (fun p => has_key p.1) (zip batch indices)).*1
              (List.filter (fun p => has_key p.1) (zip batch indices)).*2
              w ht HC) as (w2 & Hrun2 & Ht2 & _);
    [by rewrite !length_fmap | done |].
  rewrite zip_fst_snd, insert_seq_keyed in Hrun2, Ht2.
  by eexists _, _, w1, w2.
Qed.

(** X10. Insertions are cumulative: a batch inserted with success followed
    by a second batch gives the result and the hash table of the two
    batches inserted as one. *)
Theorem InsertBatch_app mode (batch1 batch2 : list TupleRow)
    (indices1 indices2 : list RowIdx) w ht w1 :
  (1 <= capacity (ins_cache w))%nat ->
  length indices1 = length batch1 ->
  (length batch2 <= length indices2)%nat ->
  hash_tbl_ (this w) = Some ht ->
  InsertBatch mode batch1 indices1 w = Done (true, w1) ->
  exists b ht' w2 w12,
    InsertBatch mode batch2 indices2 w1 = Done (b, w2) /\
    InsertBatch mode (batch1 ++ batch2) (indices1 ++ indices2) w = Done (b, w12) /\
    hash_tbl_ (this w2) = Some ht' /\
    hash_tbl_ (this w12) = Some ht'.
Proof.
  intros HC Hlen1 Hlen2 Hht Hrun1.
  destruct (InsertBatch_insert_seq mode batch1 indices1 w ht HC)
    as (w1' & Hrun1' & Ht1 & _); [lia | done |].
  rewrite Hrun1 in Hrun1'. injection Hrun1' as Hb1 <-.
  pose proof Hrun1 as Hcap. unfold InsertBatch in Hcap.
  apply insert_groups_frame in Hcap as (_ & _ & Hcap & _).
  destruct (InsertBatch_insert_seq mode batch2 indices2 w1 _ ltac:(lia) Hlen2 Ht1)
    as (w2 & Hrun2 & Ht2 & _).
  destruct (InsertBatch_insert_seq mode (batch1 ++ batch2) (indices1 ++ indices2)
              w ht HC) as (w12 & Hrun12 & Ht12 & _); [|done|].
  { rewrite !length_app. lia. }
  rewrite zip_with_app, insert_seq_app, <- Hb1 in Hrun12, Ht12 by done.
  by eexists _, _, w2, w12.
Qed.

Lemma insert_seq_false_inv ps : forall ht ht_f,
  insert_seq ps ht = (false, ht_f) ->
  exists pre p post h ht_k,
    ps = pre ++ p :: post /\
    insert_seq pre ht = (true, ht_k) /\
    key_hash p.1 = Some h /\
    HashTable_Insert ht_k (wrap32 h) p.2 p.1 = (false, ht_f).
Proof.
  induction ps as [|p ps IH]; intros ht ht_f Hseq; cbn [insert_seq] in Hseq;
    [discriminate|].
  destruct (key_hash p.1) as [h|] eqn:Hk.
  - destruct (HashTable_Insert ht (wrap32 h) p.2 p.1) as [[] ht'] eqn:Ei.
    + apply IH in Hseq as (pre & q & post & h' & ht_k & -> & Hpre & Hq & Hfail).
      exists (p :: pre), q, post, h', ht_k. split_and!; try done.
      cbn [insert_seq]. by rewrite Hk, Ei.
    + injection Hseq as <-. by exists [], p, ps, h, ht.
  - apply IH in Hseq as (pre & q & post & h' & ht_k & -> & Hpre & Hq & Hfail).
    exists (p :: pre), q, post, h', ht_k. split_and!; try done.
    cbn [insert_seq]. by rewrite Hk.
Qed.

(** X7. [InsertBatch] returns false only because an insertion failed: there
    is then a position k whose row has a key, the rows before it were
    inserted or skipped, [HashTable::Insert] returned false for row k with
    [indices[k]], and the hash table is what that call left, with the
    entries of the keyed rows before k and no other. *)
Theorem InsertBatch_false_only_on_failed_insert mode (batch : list TupleRow)
    (indices : list RowIdx) w ht w' :
  (1 <= capacity (ins_cache w))%nat ->
  (length batch <= length indices)%nat ->
  hash_tbl_ (this w) = Some ht ->
  InsertBatch mode batch indices w = Done (false, w') ->
  exists k r i h ht_k ht_f,
    batch !! k = Some r /\
    indices !! k = Some i /\
    key_hash r = Some h /\
    insert_seq (zip (take k batch) (take k indices)) ht = (true, ht_k) /\
    HashTable_Insert ht_k (wrap32 h) i r = (false, ht_f) /\
    hash_tbl_ (this w') = Some ht_f /\
    entries ht_f ≡ₚ entries ht ++ keyed_entries (zip (take k batch) (take k indices)).
Proof.
  intros HC Hlen Hht Hrun.
  destruct (InsertBatch_insert_seq mode batch indices w ht HC Hlen Hht)
    as (w'' & Hrun' & Ht & _).
  rewrite Hrun in Hrun'. injection Hrun' as Hb <-.
  destruct (insert_seq (zip batch indices) ht) as [b ht_f] eqn:Eseq.
  simpl in Hb, Ht. subst b.
  apply insert_seq_false_inv in Eseq
    as (pre & [r i] & post & h & ht_k & Hsplit & Hpre & Hk & Hfail).
  assert (zip batch indices !! length pre = Some (r, i)) as Hat.
  { rewrite Hsplit. by apply list_lookup_middle. }
  apply lookup_zip_Some in Hat as [Hr Hi].
  assert (zip (take (length pre) batch) (take (length pre) indices) = pre) as Htake.
  { rewrite <- zip_with_take. fold (zip batch indices).
    rewrite Hsplit. by rewrite take_app_length. }
  exists (length pre), r, i, h, ht_k, ht_f. rewrite Htake.
  split_and!; try done.
  rewrite (Insert_false _ _ _ _ _ Hfail).
  pose proof (insert_seq_entries pre ht) as He. rewrite Hpre in He. by apply He.
Qed.

(** ** A vector of row indices that is too short *)

Lemma insert_rows_past_indices row_indices ps : forall done cur_row w ht r rest,
  cur_ (ins_cache w) = length done ->
  slots_hold (ins_cache w) (done ++ ps.*1 ++ r :: rest) ->
  hash_tbl_ (this w) = Some ht ->
  (forall j p, ps !! j = Some p -> row_indices !! (cur_row + j)%nat = Some p.2) ->
  row_indices !! (cur_row + length ps)%nat = None ->
  (insert_seq ps ht).1 = true ->
  insert_rows row_indices (ps.*1 ++ r :: rest) cur_row w = Fault.
Proof.
  induction ps as [|p ps IH]; intros done cur_row w ht r rest Hcur Hs Hht Hidx Hnone Hok.
  - simpl in *. rewrite Nat.add_0_r in Hnone. by rewrite Hnone.
  - rewrite fmap_cons in *. rewrite <- app_comm_cons in *.
    destruct (Hs (length done) p.1) as [Hn Hh]; [by apply list_lookup_middle|].
    rewrite <- Hcur in Hn, Hh.
    rewrite (insert_rows_cons _ _ _ _ _ p.2 ht); try done.
    2: { rewrite <- (Hidx 0%nat p eq_refl). f_equal. lia. }
    assert (forall j q, ps !! j = Some q ->
              row_indices !! (S cur_row + j)%nat = Some q.2) as Hidx'.
    { intros j q Hq. rewrite <- (Hidx (S j) q Hq). f_equal. lia. }
    assert (row_indices !! (S cur_row + length ps)%nat = None) as Hnone'.
    { rewrite <- Hnone. f_equal. simpl. lia. }
    cbn [insert_seq] in Hok.
    destruct (key_hash p.1) as [h|].
    + destruct (HashTable_Insert ht (wrap32 h) p.2 p.1) as [[] ht'];
        [|discriminate].
      apply (IH (done ++ [p.1]) _ _ ht'); try done.
      * simpl. rewrite length_app, Hcur. simpl. lia.
      * rewrite <- app_assoc. by apply (slots_hold_arrays (ins_cache w)).
    + apply (IH (done ++ [p.1]) _ _ ht); try done.
      * simpl. rewrite length_app, Hcur. simpl. lia.
      * rewrite <- app_assoc. by apply (slots_hold_arrays (ins_cache w)).
Qed.

Lemma fst_zip_short {A B} (l : list A) (k : list B) :
  (zip l k).*1 = take (length k) l.
Proof.
  rewrite <- (zip_with_take_l pair l k). apply fst_zip.
  rewrite length_take. lia.
Qed.

Lemma insert_groups_past_indices mode (batch : list TupleRow)
    (indices : list RowIdx) C :
  (length indices < length batch)%nat ->
  (1 <= C)%nat ->
  forall fuel g w ht,
    capacity (ins_cache w) = C ->
    (length batch <= g + fuel)%nat ->
    (g <= length indices)%nat ->
    hash_tbl_ (this w) = Some ht ->
    (insert_seq (drop g (zip batch indices)) ht).1 = true ->
    insert_groups fuel mode batch indices C g w = Fault.
Proof.
  intros Hshort HC.
  induction fuel as [|fuel IH]; intros g w ht Hcap Hfuel Hg Hht Hok; [lia|].
  cbn [insert_groups]. rewrite decide_True by lia.
  (* the first pass *)
  destruct (prefetch_rows_spec mode (rows_limit batch g C) []
              (with_ins_cache w (Reset (ins_cache w))))
    as (w2 & Hrun2 & Ht2 & Hl2 & Hp2 & Hc2 & Hcap2 & Hs2).
  { done. }
  { simpl. by rewrite length_replicate. }
  { simpl. fold (ins_cache w). unfold capacity at 1. simpl.
    fold (capacity (ins_cache w)). rewrite Hcap. unfold rows_limit.
    rewrite length_take. lia. }
  { simpl. intros j _ Hj. apply lookup_replicate_2.
    unfold capacity in Hj. simpl in Hj. exact Hj. }
  { apply slots_hold_nil. }
  { simpl. rewrite Hht. eauto. }
  rewrite Hrun2. cbn [bind]. simpl in Ht2, Hs2.
  destruct (decide (g + C <= length indices)%nat) as [Hcov|Hpart].
  - (* every row of the group has its row index *)
    set (ps := zip (rows_limit batch g C) (take C (drop g indices))).
    assert (ps = take C (drop g (zip batch indices))) as Hps.
    { unfold ps, rows_limit. by rewrite zip_with_drop, zip_with_take. }
    assert (ps.*1 = rows_limit batch g C) as Hrows.
    { unfold ps. apply fst_zip. unfold rows_limit.
      rewrite !length_take, !length_drop. lia. }
    rewrite <- Hrows in Hs2 |- *.
    destruct (insert_rows_spec indices ps [] g
                (with_ins_cache w2 (ResetForRead (ins_cache w2))) ht)
      as (w4 & Hrun4 & Ht4 & Hb4 & Hl4 & Hp4 & Hh4 & Hn4 & Hc4).
    { done. }
    { simpl. by apply (slots_hold_arrays (ins_cache w2)). }
    { simpl. by rewrite Ht2. }
    { intros j p Hp. rewrite Hps in Hp.
      by apply (group_indices batch indices g C). }
    rewrite Hrun4. cbn [bind].
    assert (drop g (zip batch indices) = ps ++ drop (g + C) (zip batch indices))
      as Hsplit.
    { rewrite Hps. by rewrite <- drop_drop, take_drop. }
    rewrite Hsplit, insert_seq_app in Hok.
    destruct (insert_seq ps ht) as [[] ht4]; cbn [fst snd negb] in *;
      [|discriminate].
    apply (IH _ _ ht4); try done; try lia.
    simpl in Hh4. unfold capacity. rewrite Hh4.
    fold (capacity (ins_cache w2)). rewrite Hcap2. unfold capacity. simpl. exact Hcap.
  - (* the row indices end inside the group *)
    set (ps := drop g (zip batch indices)) in *.
    set (m := (length indices - g)%nat).
    assert (ps.*1 = take m (drop g batch)) as Hrows.
    { unfold ps. rewrite zip_with_drop. fold (zip (drop g batch) (drop g indices)).
      rewrite fst_zip_short, length_drop. done. }
    assert (length ps = m) as Hlen.
    { rewrite <- (length_fmap fst), Hrows, length_take, length_drop. lia. }
    assert (exists r rest, rows_limit batch g C = ps.*1 ++ r :: rest)
      as (r & rest & Hgroup).
    { unfold rows_limit. rewrite Hrows.
      assert (take C (drop g batch) =
              take m (drop g batch) ++ take (C - m) (drop m (drop g batch))) as ->.
      { rewrite take_take_drop. f_equal. lia. }
      destruct (drop m (drop g batch)) as [|r rest0] eqn:Ed.
      - apply drop_nil_inv in Ed. rewrite length_drop in Ed. lia.
      - destruct (C - m)%nat as [|c] eqn:Ec; [lia|]. simpl. eauto. }
    rewrite Hgroup in Hs2 |- *.
    assert (insert_rows indices (ps.*1 ++ r :: rest) g
              (with_ins_cache w2 (ResetForRead (ins_cache w2))) = Fault) as ->;
      [|done].
    apply (insert_rows_past_indices indices ps [] g _ ht).
    + done.
    + simpl. by apply (slots_hold_arrays (ins_cache w2)).
    + simpl. by rewrite Ht2.
    + intros j [x y] Hp. unfold ps in Hp. rewrite lookup_drop in Hp.
      by apply lookup_zip_Some in Hp as [_ Hy].
    + apply lookup_ge_None. lia.
    + done.
Qed.

(** X14. [InsertBatch] reads [row_indices[cur_row]] for every row it comes
    to, before it looks at the null flag: with fewer row indices than rows,
    and no insertion failing among the rows that have one, it reads past
    the end of the vector at the first row without a row index, even when
    that row or every row after it has a NULL key. *)
Theorem InsertBatch_reads_past_short_indices mode (batch : list TupleRow)
    (indices : list RowIdx) w ht :
  (1 <= capacity (ins_cache w))%nat ->
  (length indices < length batch)%nat ->
  hash_tbl_ (this w) = Some ht ->
  (insert_seq (zip batch indices) ht).1 = true ->
  InsertBatch mode batch indices w = Fault.
Proof.
  intros HC Hshort Hht Hok. unfold InsertBatch.
  apply (insert_groups_past_indices mode batch indices _ Hshort HC _ _ _ ht);
    try done; lia.
Qed.

(** ** A cache without slots *)

(** X11. With a cache of capacity 0 the loop over the groups adds 0 to its
    counter at each turn: on a batch that is not empty it never ends,
    however many turns it is given, and [InsertBatch] does not return. *)
Theorem InsertBatch_without_slots_never_returns mode (batch : list TupleRow)
    (indices : list RowIdx) w :
  capacity (ins_cache w) = 0%nat ->
  (0 < length batch)%nat ->
  (forall fuel,
     insert_groups fuel mode batch indices (capacity (ins_cache w)) 0 w = Diverge) /\
  InsertBatch mode batch indices w = Diverge.
Proof.
  intros HC Hpos. unfold InsertBatch. rewrite HC.
  split; [intros fuel|]; by apply insert_groups_no_progress.
Qed.

End FurtherInsert.

(** * The small engine obeys the contracts *)

Import Sample.

Lemma bloom_bit_nonneg h : 0 <= bloom_bit h.
Proof. unfold bloom_bit. apply Z.mod_pos_bound. lia. Qed.

#[global] Instance sample_laws : RuntimeLaws Sample.runtime.
Proof.
  split; simpl.
  - intros s r st s'. unfold add_row.
    destruct (io_error s); [discriminate|].
    destruct (free_slots s); [discriminate|]. by intros [= <- <-].
  - intros s r st s'. unfold add_row.
    destruct (io_error s); [by intros [= <- <-]|].
    destruct (free_slots s); [by intros [= <- <-] | discriminate].
  - intros ht h i r ht'. unfold table_insert.
    case_decide; [|discriminate]. by intros [= <-].
  - intros ht h i r ht'. unfold table_insert.
    case_decide; [discriminate|]. by intros [= <-].
  - intros bf h. unfold bloom_find, bloom_insert.
    pose proof (bloom_bit_nonneg h).
    rewrite Z.lor_spec, Z.shiftl_spec, Z.sub_diag by done.
    apply orb_true_r.
  - intros bf h x Hx. unfold bloom_find, bloom_insert in *.
    by rewrite Z.lor_spec, Hx.
Qed.

Lemma sample_slow_laws : SlowPathLaws.
Proof.
  split; simpl; unfold stream_full.
  - intros b ref r b'.
    destruct (stream_at b ref) as [s|] eqn:Es; [|discriminate].
    destruct (reservation s); [discriminate|]. intros [= <-].
    rewrite (rows_at_set_stream_same _ _ s) by done.
    unfold rows_at. by rewrite Es.
  - intros b ref r b' ref'.
    destruct (stream_at b ref) as [s|]; [|discriminate].
    destruct (reservation s); [discriminate|]. intros [= <-] Hne.
    exact (rows_at_set_stream_other (RT:=runtime) _ _ _ _ Hne).
  - intros b ref r st b'.
    destruct (stream_at b ref) as [s|]; [|by intros [= <- <-]].
    destruct (reservation s); [by intros [= <- <-]|]. intros [= <- <-].
    exact (set_stream_filters (RT:=runtime) _ _ _).
  - intros b ref r st b'.
    destruct (stream_at b ref) as [s|]; [|by intros [= <- <-]].
    destruct (reservation s); [by intros [= <- <-]|]. intros [= <- <-].
    exact (set_stream_hash_tbls (RT:=runtime) _ _ _).
Qed.

(** * The theorems at work on the small engine *)

(** The first hash partition of [after_batch4] has a full page; the next
    append goes through the slow path, once. *)
Lemma AppendRow_fast_then_slow_witness :
  stream_at (builder after_batch4) (HashRows 0) =
    Some {| rows := [keyed 0 1]; free_slots := 0;
            io_error := None; reservation := 4 |} /\
  exists w',
    AppendRow (HashRows 0) (keyed 4 5) after_batch4 = Done (OK, w') /\
    slow_path_calls w' = [(HashRows 0, keyed 4 5)] /\
    rows_at (builder w') (HashRows 0) = Some [keyed 0 1; keyed 4 5].
Proof.
  split; [reflexivity|].
  destruct (AppendRow_fast_then_slow sample_slow_laws
              (HashRows 0) (keyed 4 5) after_batch4 _ eq_refl)
    as (st & w' & Hrun & Hcase & Hend).
  cbn in Hcase. destruct Hcase as [Hslow Hcalls].
  injection Hslow as -> _.
  exists w'. split; [exact Hrun|]. split; [exact Hcalls|].
  destruct Hend as [[_ Hrows]|[code Hcode]]; [exact Hrows | discriminate].
Defined.

(** Scenario 1: four rows, four partitions. *)
Lemma ProcessBuildBatch_routes_by_top_bits_witness :
  0 < NUM_PARTITIONING_BITS <= 32 /\
  length (hash_partitions_ (builder (state0 true))) =
    Z.to_nat (2 ^ NUM_PARTITIONING_BITS) /\
  ProcessBuildBatch batch4 true (state0 true) = Done (OK, after_batch4) /\
  rows_at (builder after_batch4) (HashRows 1) = Some [keyed 1 0x40000002] /\
  rows_at (builder after_batch4) (HashRows 2) = Some [keyed 2 0x80000003].
Proof.
  assert (0 < NUM_PARTITIONING_BITS <= 32) as HB by (simpl; lia).
  split; [exact HB|]. split; [reflexivity|]. split; [reflexivity|].
  destruct (ProcessBuildBatch_routes_by_top_bits sample_slow_laws
              batch4 true (state0 true) after_batch4 HB eq_refl eq_refl)
    as [_ Hrow].
  destruct (Hrow [keyed 0 1] (keyed 1 0x40000002)
              [keyed 2 0x80000003; keyed 3 0xC0000004] 0x40000002
              eq_refl eq_refl) as (_ & (s0 & Hs0 & Hs1) & Hothers).
  injection Hs0 as <-. split; [exact Hs1|].
  exact (Hothers (HashRows 2) ltac:(discriminate)).
Defined.

(** Scenario 2: the row with a NULL key goes to the null-aware partition. *)
Lemma ProcessBuildBatch_null_keys_witness :
  ProcessBuildBatch batch3 true (state0 true) = Done (OK, after_batch3) /\
  key_hash (null_keyed 1) = None /\
  rows_at (builder after_batch3) NullAwareRows = Some [null_keyed 1] /\
  rows_at (builder after_batch3) (HashRows 1) = Some [].
Proof.
  split; [reflexivity|]. split; [reflexivity|].
  destruct (ProcessBuildBatch_null_keys sample_slow_laws
              batch3 true (state0 true) after_batch3 eq_refl
              [keyed 0 0x10000000] (null_keyed 1) [keyed 2 0x90000000]
              eq_refl eq_refl) as (Hna & _ & Hhash).
  split; [exact (Hna [] eq_refl) | exact (Hhash 1%nat)].
Defined.

(** C6 as stated fails on scenario 3: without a null-aware partition the
    two rows with NULL keys are dropped, so the streams do not gain as many
    rows as the batch has. *)
Lemma ProcessBuildBatch_total_counterexample :
  ~ (forall w',
       ProcessBuildBatch batch_nulls true (state0 false) = Done (OK, w') ->
       total_rows (builder w') =
         (total_rows (builder (state0 false)) + length batch_nulls)%nat).
Proof.
  intros Hclaim. specialize (Hclaim after_batch_nulls eq_refl).
  vm_compute in Hclaim. discriminate.
Qed.

(** Scenario 2 without a null-aware partition: two rows kept, one dropped. *)
Lemma ProcessBuildBatch_counts_rows_witness :
  0 < NUM_PARTITIONING_BITS <= 32 /\
  length (hash_partitions_ (builder (state0 false))) =
    Z.to_nat (2 ^ NUM_PARTITIONING_BITS) /\
  ProcessBuildBatch batch3 true (state0 false) = Done (OK, after_batch3_dropping) /\
  (total_rows (builder after_batch3_dropping) + 1 = 0 + 3)%nat.
Proof.
  assert (0 < NUM_PARTITIONING_BITS <= 32) as HB by (simpl; lia).
  split; [exact HB|]. split; [reflexivity|]. split; [reflexivity|].
  exact (proj1 (ProcessBuildBatch_counts_rows sample_slow_laws
                  batch3 true (state0 false) after_batch3_dropping
                  HB eq_refl eq_refl)).
Defined.

(** Scenario 4, on the batch of scenario 2: the bloom filter answers true
    for the hashes of the two rows that have a key. *)
Lemma ProcessBuildBatch_fills_filters_witness :
  ProcessBuildBatch batch3 true (state0 true) = Done (OK, after_batch3) /\
  filters_ (builder (state0 true)) !! 0%nat = Some filter_with_bloom /\
  exists bf1,
    filters_ (builder after_batch3) !! 0%nat =
      Some {| expr := tt; local_bloom_filter := Some bf1 |} /\
    bf1 = bloom_insert
            (bloom_insert 0 (filter_hash_of (RT:=runtime) tt (keyed 0 0x10000000)))
            (filter_hash_of (RT:=runtime) tt (keyed 2 0x90000000)) /\
    Find (Runtime:=runtime) bf1
      (filter_hash_of (RT:=runtime) tt (keyed 2 0x90000000)) = true.
Proof.
  split; [reflexivity|]. split; [reflexivity|].
  destruct (ProcessBuildBatch_fills_filters sample_slow_laws
              batch3 (state0 true) after_batch3 eq_refl
              0%nat filter_with_bloom 0
              eq_refl eq_refl) as (bf1 & Hf & Hbf & Hfind).
  exists bf1. split; [exact Hf|]. split; [exact Hbf|].
  apply Hfind; [|reflexivity]. simpl. auto.
Defined.

(** A row with a key and a NULL filter value: the hash of NULL is inserted. *)
Lemma ProcessBuildBatch_hashes_null_filter_value_witness :
  ProcessBuildBatch ([keyed 0 0x00000001] ++ null_valued 1 0x40000002
                     :: [keyed 2 0x80000003]) true (state0 true) =
    Done (OK, after_batch_null_value) /\
  GetValue (Runtime:=runtime) tt (null_valued 1 0x40000002) = None /\
  exists bf1,
    filters_ (builder after_batch_null_value) !! 0%nat =
      Some {| expr := tt; local_bloom_filter := Some bf1 |} /\
    Find (Runtime:=runtime) bf1 (wrap32 (GetHashValue (Runtime:=runtime) None tt DefaultHashSeed)) = true.
Proof.
  split; [reflexivity|]. split; [reflexivity|].
  destruct (ProcessBuildBatch_hashes_null_filter_value sample_slow_laws
              [keyed 0 0x00000001] (null_valued 1 0x40000002)
              [keyed 2 0x80000003] (state0 true) after_batch_null_value
              eq_refl 0x40000002 0%nat filter_with_bloom 0
              eq_refl eq_refl eq_refl eq_refl) as (bf1 & Hf & _ & Hfind).
  exists bf1. split; [exact Hf | exact Hfind].
Defined.

(** The evaluator cache of the [HashTableCtx] argument is written by
    [ProcessBuildBatch]: it is not part of the builder. *)
Example ProcessBuildBatch_writes_cache :
  expr_values_cache (ht_ctx after_batch4) <>
  expr_values_cache (ht_ctx (state0 true)).
Proof. discriminate. Qed.

(** Without [build_filters] the filters are as they were. *)
Lemma ProcessBuildBatch_frame_witness :
  ProcessBuildBatch batch4 false (state0 true) = Done (OK, after_batch4_unfiltered) /\
  filters_ (builder after_batch4_unfiltered) = filters_ (builder (state0 true)) /\
  same_frame (builder (state0 true)) (builder after_batch4_unfiltered).
Proof.
  split; [reflexivity|].
  destruct (ProcessBuildBatch_frame sample_slow_laws
              batch4 false (state0 true) OK after_batch4_unfiltered eq_refl)
    as [Hoff Hframe].
  split; [exact (Hoff eq_refl) | exact Hframe].
Defined.

(** The third row of scenario 1 meets a stream with a pending I/O error:
    the error comes back and the fourth row is not looked at. *)
Lemma ProcessBuildBatch_stops_at_error_witness :
  (ProcessBuildBatch [keyed 0 0x00000001; keyed 1 0x40000002] true state_failing =
     Done (OK, before_failure) /\
   AppendRow (HashRows 2) (keyed 2 0x80000003)
       (state_at_append true (keyed 2 0x80000003) before_failure) =
     Done (Error 7, at_failure) /\
   ProcessBuildBatch batch4 true state_failing = Done (Error 7, at_failure) /\
   rows_at (builder at_failure) (HashRows 3) = Some []) /\
  (ProcessBuildBatch [keyed 0 0x10000000] true state_failing_null_aware =
     Done (OK, before_null_failure) /\
   AppendRow NullAwareRows (null_keyed 1) before_null_failure =
     Done (Error 7, at_null_failure) /\
   ProcessBuildBatch batch3 true state_failing_null_aware =
     Done (Error 7, at_null_failure) /\
   rows_at (builder at_null_failure) (HashRows 2) = Some []).
Proof.
  split.
  - split; [reflexivity|]. split; [reflexivity|].
    destruct (ProcessBuildBatch_stops_at_error (RT:=runtime) (SP:=slow_path)
                [keyed 0 0x00000001; keyed 1 0x40000002] (keyed 2 0x80000003)
                true state_failing before_failure 7%nat at_failure
                ltac:(vm_compute; lia) (fun _ => eq_refl) eq_refl eq_refl)
      as [_ Hstop].
    split; [exact (Hstop [keyed 3 0xC0000004]) | reflexivity].
  - split; [reflexivity|]. split; [reflexivity|].
    destruct (ProcessBuildBatch_stops_at_error (RT:=runtime) (SP:=slow_path)
                [keyed 0 0x10000000] (null_keyed 1)
                true state_failing_null_aware before_null_failure 7%nat
                at_null_failure
                ltac:(vm_compute; lia) (fun _ => eq_refl) eq_refl eq_refl)
      as [_ Hstop].
    split; [exact (Hstop [keyed 2 0x90000000]) | reflexivity].
Defined.

(** Scenario 5, with two NULL keys among the ten rows and groups of four,
    four and two rows. *)
Lemma InsertBatch_inserts_keyed_rows_witness :
  length indices10 = length batch10 /\
  InsertBatch GROUP_PREFETCH batch10 indices10 (insert_state0 16) =
    Done (true, after_insert10) /\
  exists ht',
    hash_tbl_ (this after_insert10) = Some ht' /\
    entries ht' ≡ₚ
      [(10, 100%nat); (11, 101%nat); (12, 102%nat); (14, 104%nat);
       (15, 105%nat); (16, 106%nat); (17, 107%nat); (19, 109%nat)] /\
    prefetched after_insert10 = [10; 11; 12; 14; 15; 16; 17; 19].
Proof.
  split; [reflexivity|]. split; [reflexivity|].
  destruct (InsertBatch_inserts_keyed_rows (RT:=runtime) GROUP_PREFETCH batch10 indices10
              (insert_state0 16) {| slots := []; room := 16 |} after_insert10
              eq_refl eq_refl eq_refl) as (ht' & Ht & _ & He & Hp & _).
  exists ht'. split; [exact Ht|]. split; [exact (He eq_refl) | exact Hp].
Defined.


(** * The further properties at work on the small engine *)

Lemma ProcessBuildBatch_stays_in_bounds_witness :
  (1 <= capacity (expr_values_cache (ht_ctx (state0 true))))%nat /\
  length (hash_partitions_ (builder (state0 true))) =
    Z.to_nat (2 ^ NUM_PARTITIONING_BITS) /\
  exists st w',
    ProcessBuildBatch batch4 true (state0 true) = Done (st, w') /\
    length (hash_partitions_ (builder w')) = 4%nat.
Proof.
  assert (1 <= capacity (expr_values_cache (ht_ctx (state0 true))))%nat as HC
    by (vm_compute; lia).
  split; [exact HC|]. split; [reflexivity|].
  destruct (ProcessBuildBatch_stays_in_bounds sample_slow_laws batch4 true
              (state0 true) ltac:(simpl; lia) HC eq_refl (fun _ => eq_refl))
    as (st & w' & Hrun & _ & Hn & _).
  exists st, w'. split; [exact Hrun | exact Hn].
Defined.

Lemma partition_of_hash_range_witness :
  1 * 2 ^ 30 <= wrap32 0x40000002 < (1 + 1) * 2 ^ 30 /\
  partition_of (RT:=runtime) 0x40000002 = 1%nat.
Proof.
  assert (1 * 2 ^ 30 <= wrap32 0x40000002 < (1 + 1) * 2 ^ 30) as Hr.
  { assert (wrap32 0x40000002 = 1073741826) as -> by reflexivity. lia. }
  split; [exact Hr|].
  destruct (partition_of_hash_range (RT:=runtime) 0x40000002 1
              ltac:(simpl; lia)) as [Hiff _].
  apply Hiff. exact Hr.
Defined.

Lemma ProcessBuildBatch_slow_path_calls_witness :
  ProcessBuildBatch batch_one_partition false (state0 true) =
    Done (OK, after_one_partition) /\
  slow_path_calls after_one_partition = [(HashRows 0, keyed 1 0x00000002)] /\
  exists calls,
    slow_path_calls after_one_partition = [] ++ calls /\
    (length calls <= 3)%nat.
Proof.
  split; [reflexivity|]. split; [reflexivity|].
  destruct (ProcessBuildBatch_slow_path_calls (RT:=runtime) (SP:=slow_path)
              batch_one_partition false (state0 true) OK after_one_partition
              eq_refl) as (calls & Hc & _ & Hlen).
  exists calls. split; [exact Hc | exact Hlen].
Defined.

Lemma ProcessBuildBatch_filters_at_error_witness :
  ProcessBuildBatch [keyed 0 0x00000001; keyed 1 0x40000002] true state_failing =
    Done (OK, before_failure) /\
  process_build_row true (keyed 2 0x80000003) before_failure =
    Done (Error 7, at_failure) /\
  rows_at (builder at_failure) (HashRows 2) = Some [] /\
  exists bf1,
    filters_ (builder at_failure) !! 0%nat =
      Some {| expr := tt; local_bloom_filter := Some bf1 |} /\
    Find (Runtime:=runtime) bf1
      (filter_hash_of (RT:=runtime) tt (keyed 2 0x80000003)) = true.
Proof.
  split; [reflexivity|]. split; [reflexivity|]. split; [reflexivity|].
  destruct (ProcessBuildBatch_filters_at_error sample_slow_laws
              [keyed 0 0x00000001; keyed 1 0x40000002] (keyed 2 0x80000003)
              true state_failing before_failure 7%nat at_failure
              eq_refl eq_refl) as (_ & _ & Hfind).
  exact (Hfind eq_refl eq_refl 0%nat filter_with_bloom 0 eq_refl eq_refl).
Defined.

Lemma ProcessBuildBatch_uses_first_slot_witness :
  ProcessBuildBatch batch4 true (state0 true) = Done (OK, after_batch4) /\
  cur_ (expr_values_cache (ht_ctx after_batch4)) = 0%nat /\
  expr_values_hash_array_ (expr_values_cache (ht_ctx after_batch4)) !! 1%nat =
    Some 0.
Proof.
  split; [reflexivity|].
  destruct (ProcessBuildBatch_uses_first_slot (RT:=runtime) (SP:=slow_path)
              batch4 true (state0 true) OK after_batch4 eq_refl)
    as (Hcur & _ & _ & Hslots).
  split; [exact Hcur|]. exact (Hslots 1%nat ltac:(discriminate)).
Defined.

Lemma InsertBatch_frame_witness :
  InsertBatch GROUP_PREFETCH batch10 indices10 (insert_state0 16) =
    Done (true, after_insert10) /\
  build_rows (this after_insert10) = empty_stream /\
  capacity (ins_cache after_insert10) = 4%nat.
Proof.
  split; [reflexivity|].
  destruct (InsertBatch_frame (RT:=runtime) GROUP_PREFETCH batch10 indices10
              (insert_state0 16) true after_insert10 eq_refl)
    as (Hb & _ & Hc).
  split; [exact Hb | exact Hc].
Defined.

Lemma InsertBatch_none_never_prefetches_witness :
  InsertBatch NONE batch10 indices10 (insert_state0 16) =
    Done (true, after_insert10_unprefetched) /\
  prefetched after_insert10_unprefetched = [].
Proof.
  split; [reflexivity|].
  exact (InsertBatch_none_never_prefetches (RT:=runtime) batch10 indices10
           (insert_state0 16) true after_insert10_unprefetched eq_refl).
Defined.

Lemma InsertBatch_prefetch_mode_irrelevant_witness :
  (1 <= capacity (ins_cache (insert_state0 5)))%nat /\
  exists b ht' w1 w2,
    InsertBatch NONE batch10 indices10 (insert_state0 5) = Done (b, w1) /\
    InsertBatch PIPELINED_PREFETCH batch10 indices10 (insert_state0 5) =
      Done (b, w2) /\
    hash_tbl_ (this w1) = Some ht' /\
    hash_tbl_ (this w2) = Some ht'.
Proof.
  assert (1 <= capacity (ins_cache (insert_state0 5)))%nat as HC
    by (vm_compute; lia).
  split; [exact HC|].
  exact (InsertBatch_prefetch_mode_irrelevant (RT:=runtime) NONE
           PIPELINED_PREFETCH batch10 indices10 (insert_state0 5)
           {| slots := []; room := 5 |} HC ltac:(vm_compute; lia) eq_refl).
Defined.

Lemma InsertBatch_ignores_null_keys_witness :
  (List.filter (fun p => has_key p.1) (zip batch10 indices10)).*2 =
    [100; 101; 102; 104; 105; 106; 107; 109]%nat /\
  exists b ht' w1 w2,
    InsertBatch GROUP_PREFETCH batch10 indices10 (insert_state0 16) = Done (b, w1) /\
    InsertBatch GROUP_PREFETCH
      (List.filter (fun p => has_key p.1) (zip batch10 indices10)).*1
      (List.filter (fun p => has_key p.1) (zip batch10 indices10)).*2
      (insert_state0 16) = Done (b, w2) /\
    hash_tbl_ (this w1) = Some ht' /\
    hash_tbl_ (this w2) = Some ht'.
Proof.
  split; [reflexivity|].
  exact (InsertBatch_ignores_null_keys (RT:=runtime) GROUP_PREFETCH batch10
           indices10 (insert_state0 16) {| slots := []; room := 16 |}
           ltac:(vm_compute; lia) ltac:(vm_compute; lia) eq_refl).
Defined.

Lemma InsertBatch_app_witness :
  InsertBatch GROUP_PREFETCH (take 4 batch10) (take 4 indices10) (insert_state0 16) =
    Done (true, after_insert_first4) /\
  exists b ht' w2 w12,
    InsertBatch GROUP_PREFETCH (drop 4 batch10) (drop 4 indices10)
      after_insert_first4 = Done (b, w2) /\
    InsertBatch GROUP_PREFETCH (take 4 batch10 ++ drop 4 batch10)
      (take 4 indices10 ++ drop 4 indices10) (insert_state0 16) = Done (b, w12) /\
    hash_tbl_ (this w2) = Some ht' /\
    hash_tbl_ (this w12) = Some ht'.
Proof.
  split; [reflexivity|].
  exact (InsertBatch_app (RT:=runtime) GROUP_PREFETCH
           (take 4 batch10) (drop 4 batch10) (take 4 indices10) (drop 4 indices10)
           (insert_state0 16) {| slots := []; room := 16 |} after_insert_first4
           ltac:(vm_compute; lia) eq_refl ltac:(vm_compute; lia) eq_refl eq_refl).
Defined.

Lemma InsertBatch_false_only_on_failed_insert_witness :
  InsertBatch GROUP_PREFETCH batch10 indices10 (insert_state0 5) =
    Done (false, after_insert10_full) /\
  exists k r i h,
    batch10 !! k = Some r /\ indices10 !! k = Some i /\ key_hash r = Some h /\
    hash_tbl_ (this after_insert10_full) = Some table_full.
Proof.
  split; [reflexivity|].
  destruct (InsertBatch_false_only_on_failed_insert (RT:=runtime) GROUP_PREFETCH
              batch10 indices10 (insert_state0 5) {| slots := []; room := 5 |}
              after_insert10_full
              ltac:(vm_compute; lia) ltac:(vm_compute; lia) eq_refl eq_refl)
    as (k & r & i & h & ht_k & ht_f & Hr & Hi & Hk & _).
  exists k, r, i, h. split_and!; try done.
Defined.

Lemma InsertBatch_reads_past_short_indices_witness :
  (length (take 5 indices10) < length batch10)%nat /\
  InsertBatch GROUP_PREFETCH batch10 (take 5 indices10) (insert_state0 16) = Fault.
Proof.
  assert (length (take 5 indices10) < length batch10)%nat as Hshort
    by (vm_compute; lia).
  split; [exact Hshort|].
  exact (InsertBatch_reads_past_short_indices (RT:=runtime) GROUP_PREFETCH
           batch10 (take 5 indices10) (insert_state0 16)
           {| slots := []; room := 16 |}
           ltac:(vm_compute; lia) Hshort eq_refl eq_refl).
Defined.

Lemma InsertBatch_without_slots_never_returns_witness :
  capacity (ins_cache insert_state_no_slots) = 0%nat /\
  InsertBatch GROUP_PREFETCH batch10 indices10 insert_state_no_slots = Diverge.
Proof.
  split; [reflexivity|].
  exact (proj2 (InsertBatch_without_slots_never_returns (RT:=runtime)
                  GROUP_PREFETCH batch10 indices10 insert_state_no_slots
                  eq_refl ltac:(vm_compute; lia))).
Defined.

Lemma ProcessBuildBatch_no_append_on_stream_error_witness :
  ProcessBuildBatch [keyed 0 0x00000001; keyed 1 0x40000002] true state_failing =
    Done (OK, before_failure) /\
  process_build_row true (keyed 2 0x80000003) before_failure =
    Done (Error 7, at_failure) /\
  slow_path_calls at_failure = slow_path_calls before_failure /\
  rows_at (builder at_failure) (HashRows 2) = Some [] /\
  rows_at (builder at_failure) (HashRows 1) = Some [keyed 1 0x40000002].
Proof.
  split; [reflexivity|]. split; [reflexivity|]. split; [reflexivity|].
  destruct (ProcessBuildBatch_no_append_on_stream_error sample_slow_laws
              [keyed 0 0x00000001; keyed 1 0x40000002] (keyed 2 0x80000003)
              true state_failing before_failure 7%nat at_failure
              eq_refl eq_refl eq_refl) as [_ Hrows].
  split; [exact (Hrows (HashRows 2)) | exact (Hrows (HashRows 1))].
Defined.
